(** * Schema-reconciling BigQuery loader (big_uery_handler.py)

    A shallow embedding of the loader: the cast resolver, the staging
    merge, the ingestion-marker helpers and the batch orchestrator,
    together with the properties the specification states about them.

    A Python [str] is modelled by the [string] of its UTF-8 bytes.  The
    type tags of BigQuery are ASCII, and [Py.upper] is [str.upper] on
    them.  File names need not be ASCII: [str.lower] on them is a
    function of the [Runtime], known to agree with [Py.lower] on ASCII
    text.  Calls to the warehouse client, the file system and the clock
    are operations of the same interface; every call that can raise
    returns a [result]. *)

From stdpp Require Import gmap strings list fin_maps pretty.
From Stdlib Require Import ZArith Ascii String Lia.

Local Open Scope string_scope.
Local Open Scope list_scope.

(** ** Python string helpers *)

Module Py.

(** [str.upper] on one character: the 26 ASCII lower-case letters move
    down by 32, every other byte is kept. *)
Definition upper_char (c : ascii) : ascii :=
  let n := nat_of_ascii c in
  if (97 <=? n)%nat && (n <=? 122)%nat then ascii_of_nat (n - 32) else c.

Definition lower_char (c : ascii) : ascii :=
  let n := nat_of_ascii c in
  if (65 <=? n)%nat && (n <=? 90)%nat then ascii_of_nat (n + 32) else c.

Fixpoint upper (s : string) : string :=
  match s with
  | EmptyString => EmptyString
  | String c s' => String (upper_char c) (upper s')
  end.

Fixpoint lower (s : string) : string :=
  match s with
  | EmptyString => EmptyString
  | String c s' => String (lower_char c) (lower s')
  end.

(** [sep.join(parts)] *)
Fixpoint join (sep : string) (parts : list string) : string :=
  match parts with
  | [] => ""
  | [p] => p
  | p :: rest => p +:+ sep +:+ join sep rest
  end.

(** [s[i:]] and [s[:i]] for [0 <= i]. *)
Fixpoint drop (i : nat) (s : string) : string :=
  match i, s with
  | O, _ => s
  | S _, EmptyString => EmptyString
  | S i', String _ s' => drop i' s'
  end.

Fixpoint take (i : nat) (s : string) : string :=
  match i, s with
  | O, _ => EmptyString
  | S _, EmptyString => EmptyString
  | S i', String c s' => String c (take i' s')
  end.

(** [s.isascii()] *)
Fixpoint isascii (s : string) : bool :=
  match s with
  | EmptyString => true
  | String c s' => (nat_of_ascii c <? 128)%nat && isascii s'
  end.

(** [s.endswith(suffix)] *)
Definition endswith (s suffix : string) : bool :=
  (String.length suffix <=? String.length s)%nat
  && String.eqb (drop (String.length s - String.length suffix) s) suffix.

(** [s.startswith(prefix)] *)
Definition startswith (s pre : string) : bool := String.prefix pre s.

(** [s.rfind(c)] for a one-character needle: the highest index holding
    [c], or [-1]. *)
Fixpoint rfind_from (c : ascii) (s : string) (i : Z) (last : Z) : Z :=
  match s with
  | EmptyString => last
  | String d s' =>
      rfind_from c s' (i + 1) (if Ascii.eqb d c then i else last)
  end.

Definition rfind (s : string) (c : ascii) : Z := rfind_from c s 0 (-1).

(** [s[i:i+1]]: the empty string when [i] is out of range. *)
Definition char_at (s : string) (i : Z) : string :=
  if (i <? 0)%Z then "" else take 1 (drop (Z.to_nat i) s).

End Py.

(** ** Helpers to build safe casts *)

(** The table [_CAST_TARGETS], in the order of the source. *)
Definition _CAST_TARGETS_items : list (string * string) :=
  [ ("STRING", "STRING");
    ("BOOL", "BOOL");
    ("BOOLEAN", "BOOL");
    ("INT64", "INT64");
    ("INTEGER", "INT64");
    ("FLOAT64", "FLOAT64");
    ("FLOAT", "FLOAT64");
    ("NUMERIC", "NUMERIC");
    ("BIGNUMERIC", "BIGNUMERIC");
    ("DATE", "DATE");
    ("DATETIME", "DATETIME");
    ("TIMESTAMP", "TIMESTAMP");
    ("TIME", "TIME");
    ("GEOGRAPHY", "GEOGRAPHY") ].

(** A dict display keeps the last value given for a key. *)
Definition dict_of_items {V} (items : list (string * V)) : gmap string V :=
  foldl (fun m kv => <[kv.1 := kv.2]> m) ∅ items.

Definition _CAST_TARGETS : gmap string string :=
  dict_of_items _CAST_TARGETS_items.

(** [_CAST_TARGETS.get(target_type.upper(), "STRING")] *)
Definition cast_target (target_type : string) : string :=
  default "STRING" (_CAST_TARGETS !! Py.upper target_type).

Definition _safe_cast_expr (staging_alias col_name target_type : string)
  : string :=
  let tgt := cast_target target_type in
  if String.eqb tgt "STRING" then
    "CAST(" +:+ staging_alias +:+ "." +:+ col_name +:+ " AS STRING) AS "
      +:+ col_name
  else
    "SAFE_CAST(" +:+ staging_alias +:+ "." +:+ col_name +:+ " AS " +:+ tgt
      +:+ ") AS " +:+ col_name.

(** A tag is recognized when its upper-cased form is a key of the table. *)
Definition recognized (target_type : string) : Prop :=
  is_Some (_CAST_TARGETS !! Py.upper target_type).

(** ** Exceptions, results and the data of the client library *)

(** Instances of Python's [Exception] that the calls below raise.  The
    signals outside [Exception] (KeyboardInterrupt, SystemExit) are not
    raised by any of the calls and are left out. *)
Inductive exn : Type :=
  | NotFound (msg : string)
  | BadRequest (msg : string)
  | Forbidden (msg : string)
  | ServiceUnavailable (msg : string)
  | FileNotFoundError (msg : string)
  | PermissionError (msg : string)
  | KeyError (key : string).

Definition str_exn (e : exn) : string :=
  match e with
  | NotFound m | BadRequest m | Forbidden m | ServiceUnavailable m
  | FileNotFoundError m | PermissionError m => m
  | KeyError k => "'" +:+ k +:+ "'"
  end.

Definition class_name (e : exn) : string :=
  match e with
  | NotFound _ => "NotFound"
  | BadRequest _ => "BadRequest"
  | Forbidden _ => "Forbidden"
  | ServiceUnavailable _ => "ServiceUnavailable"
  | FileNotFoundError _ => "FileNotFoundError"
  | PermissionError _ => "PermissionError"
  | KeyError _ => "KeyError"
  end.

(** [traceback.format_exc()], without the stack frames. *)
Definition format_exc (e : exn) : string :=
  "Traceback (most recent call last):" +:+ String "010"%char ""
    +:+ class_name e +:+ ": " +:+ str_exn e.

Inductive result (A : Type) : Type :=
  | Ok (a : A)
  | Raise (e : exn).
Arguments Ok {A} a.
Arguments Raise {A} e.

(** [bigquery.SchemaField(name, field_type, mode="NULLABLE")] *)
Record SchemaField : Type := mkSchemaField {
  name : string;
  field_type : string;
  mode : string
}.

Definition SchemaField2 (n ty : string) : SchemaField :=
  mkSchemaField n ty "NULLABLE".

(** [bigquery.Table]: the identity it was fetched under and its schema. *)
Record Table : Type := mkTable {
  table_ref : string;
  schema : list SchemaField
}.

(** [bigquery.LoadJob]: its destination and the error the job ended
    with, if any. *)
Record LoadJob : Type := mkLoadJob {
  job_destination : string;
  job_error : option exn
}.

Inductive SourceFormat := CSV.
Inductive WriteDisposition := WRITE_TRUNCATE | WRITE_APPEND | WRITE_EMPTY.

Record LoadJobConfig : Type := mkLoadJobConfig {
  source_format : SourceFormat;
  skip_leading_rows : nat;
  autodetect : bool;
  write_disposition : WriteDisposition
}.

(** [datetime.date] and [datetime.datetime] *)
Record date : Type := mkDate { year : nat; month : nat; day : nat }.

Record datetime : Type := mkDatetime {
  dt_date : date; hour : nat; minute : nat; second : nat
}.

Definition zfill (width : nat) (s : string) : string :=
  Py.join "" (replicate (width - String.length s) "0") +:+ s.

Definition dec (width n : nat) : string := zfill width (pretty n).

(** [str(d)] for a date: [YYYY-MM-DD]. *)
Definition str_date (d : date) : string :=
  dec 4 (year d) +:+ "-" +:+ dec 2 (month d) +:+ "-" +:+ dec 2 (day d).

(** [dt.strftime('%Y%m%d%H%M%S')] *)
Definition strftime_YmdHMS (t : datetime) : string :=
  dec 4 (year (dt_date t)) +:+ dec 2 (month (dt_date t))
    +:+ dec 2 (day (dt_date t))
    +:+ dec 2 (hour t) +:+ dec 2 (minute t) +:+ dec 2 (second t).

(** ** The statements sent to the warehouse *)

(** One entry of the select list of the merge: the cast of the staging
    column of the same name, or a typed NULL. *)
Inductive select_item : Type :=
  | FromStaging (col tgt_type : string)
  | TypedNull (col tgt_type : string).

Definition render_item (it : select_item) : string :=
  match it with
  | FromStaging col tgt_type => _safe_cast_expr "stg" col tgt_type
  | TypedNull col tgt_type =>
      "CAST(NULL AS " +:+ cast_target tgt_type +:+ ") AS " +:+ col
  end.

Definition item_col (it : select_item) : string :=
  match it with FromStaging c _ | TypedNull c _ => c end.

(** The staging column an entry reads, if any. *)
Definition item_source (it : select_item) : option string :=
  match it with FromStaging c _ => Some c | TypedNull _ _ => None end.

Definition nl : string := String "010"%char "".

(** The text of the INSERT of [_append_via_staging_with_casts]. *)
Definition insert_sql (target_table_id : string) (tgt_cols : list string)
    (select_exprs : list string) (staging_table_id : string) : string :=
  let select_sql := Py.join ("," +:+ nl +:+ "            ") select_exprs in
  nl +:+ "        INSERT INTO `" +:+ target_table_id +:+ "` ("
     +:+ Py.join ", " tgt_cols +:+ ")" +:+ nl
     +:+ "        SELECT" +:+ nl
     +:+ "            " +:+ select_sql +:+ nl
     +:+ "        FROM `" +:+ staging_table_id +:+ "` AS stg" +:+ nl
     +:+ "        ".

(** The text of the UPDATE of [_set_ingestion_date_if_exists]. *)
Definition update_sql (table_id : string) (date_value : date) : string :=
  nl +:+ "        UPDATE `" +:+ table_id +:+ "`" +:+ nl
     +:+ "        SET Ingestion_date = DATE('" +:+ str_date date_value
     +:+ "')" +:+ nl
     +:+ "        WHERE Ingestion_date IS NULL" +:+ nl
     +:+ "        ".

(** The two statements of the loader, kept with their parameters; the
    client receives [sql_text]. *)
Inductive statement : Type :=
  | InsertSelect (target_table_id : string) (tgt_cols : list string)
      (items : list select_item) (staging_table_id : string)
  | UpdateIngestionDate (table_id : string) (date_value : date).

Definition sql_text (q : statement) : string :=
  match q with
  | InsertSelect target cols items staging =>
      insert_sql target cols (render_item <$> items) staging
  | UpdateIngestionDate table_id d => update_sql table_id d
  end.

(** ** The runtime: warehouse client, file system and clock *)

Inductive level := INFO | ERROR.

Inductive event : Type :=
  | EGetTable (table_id : string)
  | EOpen (path : string)
  | EClose (path : string)
  | ELoadTableFromFile (file_path table_id : string) (cfg : LoadJobConfig)
  | EJobResult (job : LoadJob)
  | EQuery (q : statement)
  | EDeleteTable (table_id : string) (not_found_ok : bool)
  | EUpdateTable (table : Table) (fields : list string)
  | EListdir (path : string)
  | ERemove (path : string)
  | ENow
  | EToday
  | ELog (lvl : level) (msg : string).

(** What the loader needs from the outside.  [rt_open] is
    [open(path, "rb")], [rt_load_table_from_file] submits the load job
    for the open file, [rt_job_result] is [job.result()]; [rt_query]
    stands for [client.query(sql).result()].  [str_lower] is
    [str.lower]. *)
Class Runtime (W : Type) : Type := {
  rt_get_table : string → W → result Table * W;
  rt_open : string → W → result unit * W;
  rt_load_table_from_file :
    string → string → LoadJobConfig → W → result LoadJob * W;
  rt_job_result : LoadJob → W → result unit * W;
  rt_query : statement → W → result unit * W;
  rt_delete_table : string → bool → W → result unit * W;
  rt_update_table : Table → list string → W → result unit * W;
  rt_listdir : string → W → result (list string) * W;
  rt_remove : string → W → result unit * W;
  rt_now : W → datetime * W;
  rt_today : W → date * W;
  str_lower : string → string;
  str_lower_ascii :
    ∀ s : string, Py.isascii s = true → str_lower s = Py.lower s
}.

(** A computation: from a world to an outcome, the next world and the
    calls made, in order. *)
Definition M (W A : Type) : Type := W → result A * W * list event.

Definition ret {W A} (a : A) : M W A := fun w => (Ok a, w, []).

Definition raise {W A} (e : exn) : M W A := fun w => (Raise e, w, []).

Definition bind {W A B} (m : M W A) (k : A → M W B) : M W B :=
  fun w =>
    match m w with
    | (Ok a, w1, t1) =>
        match k a w1 with (r, w2, t2) => (r, w2, t1 ++ t2) end
    | (Raise e, w1, t1) => (Raise e, w1, t1)
    end.

(** [try: body / except Exception as e: handler(e)] *)
Definition try_except {W A} (body : M W A) (handler : exn → M W A) : M W A :=
  fun w =>
    match body w with
    | (Ok a, w1, t1) => (Ok a, w1, t1)
    | (Raise e, w1, t1) =>
        match handler e w1 with (r, w2, t2) => (r, w2, t1 ++ t2) end
    end.

(** [try: body / finally: fin]: [fin] runs on both exits; an exception
    of [fin] replaces the outcome of [body]. *)
Definition try_finally {W A} (body : M W A) (fin : M W unit) : M W A :=
  fun w =>
    match body w with
    | (r, w1, t1) =>
        match fin w1 with
        | (Ok _, w2, t2) => (r, w2, t1 ++ t2)
        | (Raise e, w2, t2) => (Raise e, w2, t1 ++ t2)
        end
    end.

(** A call that can raise, and one that cannot. *)
Definition call {W A} (ev : event) (f : W → result A * W) : M W A :=
  fun w => match f w with (r, w1) => (r, w1, [ev]) end.

Definition call_total {W A} (ev : event) (f : W → A * W) : M W A :=
  fun w => match f w with (a, w1) => (Ok a, w1, [ev]) end.

Definition lift_result {W A} (r : result A) : M W A := fun w => (r, w, []).

(** [for x in xs: body(x)] *)
Fixpoint for_each {W A} (xs : list A) (body : A → M W unit) : M W unit :=
  match xs with
  | [] => ret tt
  | x :: rest => bind (body x) (fun _ => for_each rest body)
  end.

#[global] Instance M_ret {W} : MRet (M W) := fun A => @ret W A.
#[global] Instance M_bind {W} : MBind (M W) := fun A B k m => bind m k.

(** ** os.path *)

Module OsPath.

(** The scan of [genericpath._splitext] over the leading dots: from
    [filenameIndex] up to [dotIndex], the first character that is not
    a dot makes the split at [dotIndex]. *)
Fixpoint skip_leading_dots (fuel : nat) (p : string)
    (filenameIndex dotIndex : Z) : string * string :=
  match fuel with
  | O => (p, "")
  | S fuel' =>
      if (filenameIndex <? dotIndex)%Z then
        if negb (String.eqb (Py.char_at p filenameIndex) ".") then
          (Py.take (Z.to_nat dotIndex) p, Py.drop (Z.to_nat dotIndex) p)
        else skip_leading_dots fuel' p (filenameIndex + 1) dotIndex
      else (p, "")
  end.

(** [posixpath.splitext]: separator [/], no alternative separator. *)
Definition splitext (p : string) : string * string :=
  let sepIndex := Py.rfind p "/" in
  let dotIndex := Py.rfind p "." in
  if (sepIndex <? dotIndex)%Z then
    skip_leading_dots (Z.to_nat (dotIndex - (sepIndex + 1))) p
      (sepIndex + 1) dotIndex
  else (p, "").

(** [posixpath.join(a, b)] *)
Definition join (a b : string) : string :=
  if Py.startswith b "/" then b
  else if String.eqb a "" || Py.endswith a "/" then a +:+ b
  else a +:+ "/" +:+ b.

End OsPath.

(** Names as [os.listdir] gives them hold no separator; a name made of
    dots only has no root for [splitext] to split from. *)
Fixpoint has_char (c : ascii) (s : string) : bool :=
  match s with
  | EmptyString => false
  | String d s' => Ascii.eqb d c || has_char c s'
  end.


(** ** BigQueryUploader *)

Record BigQueryUploader : Type := mkUploader {
  project_id : string;
  dataset_id : string;
  download_path : string
}.

(** [d[k]] *)
Definition getitem {V} (d : gmap string V) (k : string) : result V :=
  match d !! k with
  | Some v => Ok v
  | None => Raise (KeyError k)
  end.

Definition tgt_cols_of (tgt_table : Table) : list string :=
  name <$> schema tgt_table.

Definition tgt_types_of (tgt_table : Table) : gmap string string :=
  dict_of_items ((fun f => (name f, field_type f)) <$> schema tgt_table).

Definition stg_cols_set_of (stg_table : Table) : gset string :=
  list_to_set (name <$> schema stg_table).

(** The loop that fills [select_exprs]: each round appends the text
    [render_item] gives for the entry chosen. *)
Fixpoint select_items_loop (cols : list string)
    (tgt_types : gmap string string) (stg_cols_set : gset string)
    (acc : list select_item) : result (list select_item) :=
  match cols with
  | [] => Ok acc
  | col :: rest =>
      match getitem tgt_types col with
      | Raise e => Raise e
      | Ok tgt_type =>
          let it :=
            if decide (col ∈ stg_cols_set) then FromStaging col tgt_type
            else TypedNull col tgt_type in
          select_items_loop rest tgt_types stg_cols_set (acc ++ [it])
      end
  end.

Definition select_items (tgt_table stg_table : Table)
  : result (list select_item) :=
  select_items_loop (tgt_cols_of tgt_table) (tgt_types_of tgt_table)
    (stg_cols_set_of stg_table) [].

Definition select_exprs (tgt_table stg_table : Table)
  : result (list string) :=
  match select_items tgt_table stg_table with
  | Ok items => Ok (render_item <$> items)
  | Raise e => Raise e
  end.

Definition load_cfg : LoadJobConfig :=
  mkLoadJobConfig CSV 1 true WRITE_TRUNCATE.

Definition staging_table_id_of (target_table_id : string) (now : datetime)
  : string :=
  target_table_id +:+ "__stg_" +:+ strftime_YmdHMS now.

Definition has_ingestion_date (table : Table) : bool :=
  existsb (fun f => String.eqb (name f) "Ingestion_date") (schema table).

Section Uploader.

Context {W : Type} {RT : Runtime W}.

Definition logger_info (msg : string) : M W unit :=
  fun w => (Ok tt, w, [ELog INFO msg]).

Definition logger_error (msg : string) : M W unit :=
  fun w => (Ok tt, w, [ELog ERROR msg]).

(** *** Table utilities *)

Definition get_table (table_id : string) : M W Table :=
  call (EGetTable table_id) (rt_get_table table_id).

Definition table_exists (table_id : string) : M W bool :=
  try_except (get_table table_id ;; mret true) (fun _ => mret false).

(** *** Ingestion_date helpers *)

Definition _ensure_ingestion_date_column (table_id : string) : M W unit :=
  table ← get_table table_id;
  if has_ingestion_date table then mret tt
  else
    let new_schema := schema table ++ [SchemaField2 "Ingestion_date" "DATE"] in
    let table := mkTable (table_ref table) new_schema in
    call (EUpdateTable table ["schema"]) (rt_update_table table ["schema"]) ;;
    logger_info ("🧩 Added Ingestion_date column to: " +:+ table_id).

Definition _set_ingestion_date_if_exists (table_id : string)
    (date_value : date) : M W unit :=
  table ← get_table table_id;
  if negb (has_ingestion_date table) then mret tt
  else
    let query := UpdateIngestionDate table_id date_value in
    call (EQuery query) (rt_query query) ;;
    logger_info ("🗓️ Ingestion_date set for rows in: " +:+ table_id).

(** *** Upload strategies *)

(** [with open(path, "rb") as source_file: body]: the file is closed on
    both exits of [body]; nothing is closed when [open] raises. *)
Definition with_open {A} (path : string) (body : M W A) : M W A :=
  call (EOpen path) (rt_open path) ;;
  try_finally body (fun w => (Ok tt, w, [EClose path])).

Definition _create_table_and_load (file_path table_id : string) : M W unit :=
  logger_info
    ("🆕 Table doesn't exist. Creating table by loading with autodetect: "
       +:+ table_id) ;;
  job ← with_open file_path
          (call (ELoadTableFromFile file_path table_id load_cfg)
                (rt_load_table_from_file file_path table_id load_cfg));
  call (EJobResult job) (rt_job_result job) ;;
  logger_info ("📘 Table created & data loaded: " +:+ table_id) ;;
  _ensure_ingestion_date_column table_id.

Definition _append_via_staging_with_casts (file_path target_table_id : string)
  : M W unit :=
  now ← call_total ENow rt_now;
  let staging_table_id := staging_table_id_of target_table_id now in
  logger_info ("📥 Loading into staging table: " +:+ staging_table_id) ;;
  with_open file_path
    (job ← call (ELoadTableFromFile file_path staging_table_id load_cfg)
                (rt_load_table_from_file file_path staging_table_id load_cfg);
     call (EJobResult job) (rt_job_result job)) ;;
  tgt_table ← get_table target_table_id;
  stg_table ← get_table staging_table_id;
  items ← lift_result (select_items tgt_table stg_table);
  let insert := InsertSelect target_table_id (tgt_cols_of tgt_table) items
                  staging_table_id in
  logger_info "🔄 Inserting from staging into target with SAFE_CASTs…" ;;
  call (EQuery insert) (rt_query insert) ;;
  call (EDeleteTable staging_table_id true)
       (rt_delete_table staging_table_id true) ;;
  logger_info ("🗑️ Staging table dropped: " +:+ staging_table_id).

Definition upload_csv (file_path table_id : string) : M W unit :=
  logger_info ("⬆️ Uploading: " +:+ file_path +:+ " → " +:+ table_id) ;;
  ingestion_date ← call_total EToday rt_today;
  exists_ ← table_exists table_id;
  if exists_ : bool then
    _append_via_staging_with_casts file_path table_id ;;
    _set_ingestion_date_if_exists table_id ingestion_date
  else
    _create_table_and_load file_path table_id ;;
    _set_ingestion_date_if_exists table_id ingestion_date.

(** *** Main orchestrator *)

Definition considered (file_name : string) : bool :=
  Py.endswith (str_lower file_name) ".csv".

Definition table_name_of (file_name : string) : string :=
  str_lower (OsPath.splitext file_name).1.

Definition table_id_of (self : BigQueryUploader) (file_name : string)
  : string :=
  project_id self +:+ "." +:+ dataset_id self +:+ "."
    +:+ table_name_of file_name.

Definition file_path_of (self : BigQueryUploader) (file_name : string)
  : string :=
  OsPath.join (download_path self) file_name.

Definition process_file (self : BigQueryUploader) (file_name : string)
  : M W unit :=
  if negb (considered file_name) then mret tt
  else
    let table_id := table_id_of self file_name in
    let file_path := file_path_of self file_name in
    try_finally
      (try_except
         (upload_csv file_path table_id ;;
          logger_info ("✅ Finished processing: " +:+ file_name))
         (fun e =>
            logger_error ("❌ Failed to process " +:+ file_name +:+ ": "
                            +:+ str_exn e) ;;
            logger_error (format_exc e)))
      (try_except
         (call (ERemove file_path) (rt_remove file_path) ;;
          logger_info ("🗑️ Deleted file: " +:+ file_name))
         (fun e =>
            logger_error ("❌ Could not delete " +:+ file_name +:+ ": "
                            +:+ str_exn e))).

Definition upload_all_csvs (self : BigQueryUploader) : M W unit :=
  logger_info ("📂 Scanning folder: " +:+ download_path self) ;;
  file_names ← call (EListdir (download_path self))
                    (rt_listdir (download_path self));
  for_each file_names (process_file self).

End Uploader.

(** ** The SQL the warehouse understands

    The warehouse of the model executes the text it is sent.  This is
    the fragment of SQL that the two statements of the loader are
    written in: an UPDATE that sets one column to a date where a column
    is (or is not) NULL, and an INSERT of a list of casts selected from
    one table.  Key words are read in upper case only. *)

Module Sql.

Inductive token : Type :=
  | TWord (s : string)
  | TQuoted (s : string)
  | TString (s : string)
  | TLParen
  | TRParen
  | TComma
  | TDot
  | TEq
  | TError.

Definition is_word_char (c : ascii) : bool :=
  let n := nat_of_ascii c in
  ((48 <=? n)%nat && (n <=? 57)%nat)
  || ((65 <=? n)%nat && (n <=? 90)%nat)
  || ((97 <=? n)%nat && (n <=? 122)%nat)
  || (n =? 95)%nat.

Definition is_space (c : ascii) : bool :=
  let n := nat_of_ascii c in
  (n =? 32)%nat || (n =? 10)%nat || (n =? 9)%nat || (n =? 13)%nat.

(** Where the lexer is: between tokens or in a word, inside back quotes,
    inside a string literal, or past a character it cannot read. *)
Inductive lex_mode : Type :=
  | Plain (word : string)
  | InQuote (acc : string)
  | InString (acc : string)
  | Failed.

Definition flush (word : string) : list token :=
  if String.eqb word "" then [] else [TWord word].

(** One character: the tokens it completes and the mode after it. *)
Definition step (c : ascii) (mode : lex_mode) : list token * lex_mode :=
  match mode with
  | Plain w =>
      if is_word_char c then ([], Plain (w +:+ String c ""))
      else if is_space c then (flush w, Plain "")
      else if Ascii.eqb c "(" then (flush w ++ [TLParen], Plain "")
      else if Ascii.eqb c ")" then (flush w ++ [TRParen], Plain "")
      else if Ascii.eqb c "," then (flush w ++ [TComma], Plain "")
      else if Ascii.eqb c "." then (flush w ++ [TDot], Plain "")
      else if Ascii.eqb c "=" then (flush w ++ [TEq], Plain "")
      else if Ascii.eqb c "`" then (flush w, InQuote "")
      else if Ascii.eqb c "'" then (flush w, InString "")
      else (flush w ++ [TError], Failed)
  | InQuote acc =>
      if Ascii.eqb c "`" then ([TQuoted acc], Plain "")
      else ([], InQuote (acc +:+ String c ""))
  | InString acc =>
      if Ascii.eqb c "'" then ([TString acc], Plain "")
      else ([], InString (acc +:+ String c ""))
  | Failed => ([], Failed)
  end.

(** The end of the text: an open quote is an error. *)
Definition finish (mode : lex_mode) : list token :=
  match mode with
  | Plain w => flush w
  | InQuote _ | InString _ => [TError]
  | Failed => []
  end.

Fixpoint lex (s : string) (mode : lex_mode) : list token :=
  match s with
  | EmptyString => finish mode
  | String c s' => (step c mode).1 ++ lex s' (step c mode).2
  end.

Definition tokens (text : string) : list token := lex text (Plain "").

(** The lexer over the first part of a text: the tokens completed in it
    and the mode it ends in. *)
Fixpoint scan (s : string) (mode : lex_mode) : list token * lex_mode :=
  match s with
  | EmptyString => ([], mode)
  | String c s' =>
      let r := scan s' (step c mode).2 in ((step c mode).1 ++ r.1, r.2)
  end.

(** [UPDATE `table` SET column = DATE('literal')
     WHERE where_column IS [NOT] NULL] *)
Record update_stmt : Type := mkUpdate {
  u_table : string;
  u_column : string;
  u_literal : string;
  u_where_column : string;
  u_where_null : bool
}.

Inductive operand : Type :=
  | ONull
  | OColumn (alias col : string).

(** [CAST(operand AS type) AS alias] or [SAFE_CAST(...) AS alias] *)
Record select_entry : Type := mkEntry {
  e_safe : bool;
  e_operand : operand;
  e_type : string;
  e_alias : string
}.

(** [INSERT INTO `table` (columns) SELECT entries FROM `source` AS alias] *)
Record insert_stmt : Type := mkInsert {
  i_table : string;
  i_columns : list string;
  i_entries : list select_entry;
  i_source : string;
  i_alias : string
}.

Inductive ast : Type :=
  | AUpdate (u : update_stmt)
  | AInsert (i : insert_stmt).

Definition parse_null_test (ts : list token) : option bool :=
  match ts with
  | [TWord n] => if String.eqb n "NULL" then Some true else None
  | [TWord n1; TWord n2] =>
      if String.eqb n1 "NOT" && String.eqb n2 "NULL" then Some false
      else None
  | _ => None
  end.

Definition parse_update (ts : list token) : option update_stmt :=
  match ts with
  | TQuoted t :: TWord set_ :: TWord c :: TEq :: TWord f :: TLParen
      :: TString lit :: TRParen :: TWord where_ :: TWord wc :: TWord is_
      :: rest =>
      if String.eqb set_ "SET" && String.eqb f "DATE"
         && String.eqb where_ "WHERE" && String.eqb is_ "IS"
      then mkUpdate t c lit wc <$> parse_null_test rest
      else None
  | _ => None
  end.

(** The column list, up to and with its closing parenthesis. *)
Fixpoint parse_columns (ts : list token) : option (list string * list token) :=
  match ts with
  | TWord c :: TRParen :: rest => Some ([c], rest)
  | TWord c :: TComma :: rest =>
      match parse_columns rest with
      | Some (cs, rest') => Some (c :: cs, rest')
      | None => None
      end
  | _ => None
  end.

Definition cast_word (f : string) : option bool :=
  if String.eqb f "CAST" then Some false
  else if String.eqb f "SAFE_CAST" then Some true
  else None.

Definition make_entry (f : string) (o : operand) (as1 ty as2 alias : string)
  : option select_entry :=
  match cast_word f with
  | Some safe =>
      if String.eqb as1 "AS" && String.eqb as2 "AS"
      then Some (mkEntry safe o ty alias) else None
  | None => None
  end.

(** The select list, up to and with the [FROM] that ends it. *)
Fixpoint parse_entries (ts : list token)
  : option (list select_entry * list token) :=
  match ts with
  | TWord f :: TLParen :: TWord a :: TDot :: TWord c :: TWord as1 :: TWord ty
      :: TRParen :: TWord as2 :: TWord alias :: sep :: rest =>
      match make_entry f (OColumn a c) as1 ty as2 alias, sep with
      | Some e, TComma =>
          match parse_entries rest with
          | Some (es, rest') => Some (e :: es, rest')
          | None => None
          end
      | Some e, TWord from_ =>
          if String.eqb from_ "FROM" then Some ([e], rest) else None
      | _, _ => None
      end
  | TWord f :: TLParen :: TWord n :: TWord as1 :: TWord ty
      :: TRParen :: TWord as2 :: TWord alias :: sep :: rest =>
      match (if String.eqb n "NULL"
             then make_entry f ONull as1 ty as2 alias else None), sep with
      | Some e, TComma =>
          match parse_entries rest with
          | Some (es, rest') => Some (e :: es, rest')
          | None => None
          end
      | Some e, TWord from_ =>
          if String.eqb from_ "FROM" then Some ([e], rest) else None
      | _, _ => None
      end
  | _ => None
  end.

Definition parse_source (ts : list token) : option (string * string) :=
  match ts with
  | [TQuoted s; TWord as_; TWord alias] =>
      if String.eqb as_ "AS" then Some (s, alias) else None
  | _ => None
  end.

Definition parse_insert (ts : list token) : option insert_stmt :=
  match ts with
  | TWord into :: TQuoted t :: TLParen :: rest =>
      if String.eqb into "INTO" then
        match parse_columns rest with
        | Some (cols, TWord select_ :: rest1) =>
            if String.eqb select_ "SELECT" then
              match parse_entries rest1 with
              | Some (entries, rest2) =>
                  match parse_source rest2 with
                  | Some (src, alias) =>
                      Some (mkInsert t cols entries src alias)
                  | None => None
                  end
              | None => None
              end
            else None
        | _ => None
        end
      else None
  | _ => None
  end.

Definition parse_tokens (ts : list token) : option ast :=
  match ts with
  | TWord k :: rest =>
      if String.eqb k "UPDATE" then AUpdate <$> parse_update rest
      else if String.eqb k "INSERT" then AInsert <$> parse_insert rest
      else None
  | _ => None
  end.

Definition parse (text : string) : option ast := parse_tokens (tokens text).

End Sql.

(** ** A warehouse and a file system to run the loader against

    An in-memory model of the services behind [Runtime]: tables with a
    schema and rows, a download directory of files and a clock.  A row
    maps a column name to the text of its value; a column without an
    entry is NULL.  What the service makes of the bytes of a file under
    a load configuration (the detection of columns and types, the
    skipping of rows) and what a cast makes of a value are not fixed by
    the model: they are functions held by the world, so a statement
    about every world holds for every such behaviour.  A query is
    executed from its text, through [Sql.parse]. *)

Module Warehouse.

Record table_data : Type := mkTableData {
  td_schema : list SchemaField;
  td_rows : list (gmap string string)
}.

(** The behaviour of the service that the model leaves open.
    [sv_load cfg bytes]: the table a load job makes, or its error.
    [sv_cast type v]: [CAST(v AS type)]; [None] is an error,
    [Some None] is NULL. *)
Record service : Type := mkService {
  sv_load : LoadJobConfig → string → result table_data;
  sv_cast : string → string → option (option string)
}.

Record warehouse : Type := mkWarehouse {
  wh_tables : gmap string table_data;
  wh_dirs : gmap string (list string);
  wh_files : gmap string string;
  wh_clock : datetime;
  wh_service : service
}.

Definition with_tables (w : warehouse) (ts : gmap string table_data)
  : warehouse :=
  mkWarehouse ts (wh_dirs w) (wh_files w) (wh_clock w) (wh_service w).

(** *** Metadata *)

Definition wh_get_table (table_id : string) (w : warehouse)
  : result Table * warehouse :=
  match wh_tables w !! table_id with
  | Some t => (Ok (mkTable table_id (td_schema t)), w)
  | None => (Raise (NotFound ("Not found: Table " +:+ table_id)), w)
  end.

Definition wh_update_table (table : Table) (fields : list string)
    (w : warehouse) : result unit * warehouse :=
  match wh_tables w !! table_ref table with
  | Some t =>
      if bool_decide ("schema" ∈ fields) then
        (Ok tt,
         with_tables w
           (<[table_ref table := mkTableData (schema table) (td_rows t)]>
              (wh_tables w)))
      else (Ok tt, w)
  | None =>
      (Raise (NotFound ("Not found: Table " +:+ table_ref table)), w)
  end.

Definition wh_delete_table (table_id : string) (not_found_ok : bool)
    (w : warehouse) : result unit * warehouse :=
  match wh_tables w !! table_id with
  | Some _ => (Ok tt, with_tables w (delete table_id (wh_tables w)))
  | None =>
      if not_found_ok then (Ok tt, w)
      else (Raise (NotFound ("Not found: Table " +:+ table_id)), w)
  end.

(** *** Files and load jobs *)

Definition wh_open (path : string) (w : warehouse) : result unit * warehouse :=
  match wh_files w !! path with
  | Some _ => (Ok tt, w)
  | None =>
      (Raise (FileNotFoundError ("No such file or directory: " +:+ path)), w)
  end.

(** The table a load leaves, by write disposition. *)
Definition written (disposition : WriteDisposition)
    (old : option table_data) (new : table_data) : result table_data :=
  match disposition, old with
  | WRITE_TRUNCATE, _ | _, None => Ok new
  | WRITE_APPEND, Some t =>
      Ok (mkTableData (td_schema t) (td_rows t ++ td_rows new))
  | WRITE_EMPTY, Some t =>
      match td_rows t with
      | [] => Ok new
      | _ :: _ => Raise (BadRequest "Already Exists: Table")
      end
  end.

(** The job is run when it is submitted; an error of the job is kept in
    the job and raised by [result()]. *)
Definition wh_load_table_from_file (file_path table_id : string)
    (cfg : LoadJobConfig) (w : warehouse) : result LoadJob * warehouse :=
  match wh_files w !! file_path with
  | None =>
      (Raise (FileNotFoundError ("No such file or directory: " +:+ file_path)),
       w)
  | Some bytes =>
      match sv_load (wh_service w) cfg bytes with
      | Raise e => (Ok (mkLoadJob table_id (Some e)), w)
      | Ok new =>
          match written (write_disposition cfg) (wh_tables w !! table_id) new
          with
          | Raise e => (Ok (mkLoadJob table_id (Some e)), w)
          | Ok t =>
              (Ok (mkLoadJob table_id None),
               with_tables w (<[table_id := t]> (wh_tables w)))
          end
      end
  end.

Definition wh_job_result (job : LoadJob) (w : warehouse)
  : result unit * warehouse :=
  match job_error job with
  | None => (Ok tt, w)
  | Some e => (Raise e, w)
  end.

(** *** Queries *)

(** Writing a value, or NULL, into a column of a row. *)
Definition set_column (col : string) (v : option string)
    (r : gmap string string) : gmap string string :=
  match v with
  | Some x => <[col := x]> r
  | None => delete col r
  end.

Definition has_column (sch : list SchemaField) (col : string) : bool :=
  bool_decide (col ∈ name <$> sch).

(** One row under [UPDATE .. SET column = v WHERE where_column IS [NOT]
    NULL]. *)
Definition update_row (u : Sql.update_stmt) (v : option string)
    (r : gmap string string) : gmap string string :=
  let is_null := bool_decide (r !! Sql.u_where_column u = None) in
  if Bool.eqb is_null (Sql.u_where_null u)
  then set_column (Sql.u_column u) v r
  else r.

Definition exec_update (u : Sql.update_stmt) (w : warehouse)
  : result unit * warehouse :=
  match wh_tables w !! Sql.u_table u with
  | None => (Raise (NotFound ("Not found: Table " +:+ Sql.u_table u)), w)
  | Some t =>
      if has_column (td_schema t) (Sql.u_column u)
         && has_column (td_schema t) (Sql.u_where_column u)
      then
        match sv_cast (wh_service w) "DATE" (Sql.u_literal u) with
        | None => (Raise (BadRequest "Invalid date"), w)
        | Some v =>
            (Ok tt,
             with_tables w
               (<[Sql.u_table u :=
                    mkTableData (td_schema t) (update_row u v <$> td_rows t)]>
                  (wh_tables w)))
        end
      else (Raise (BadRequest "Unrecognized name"), w)
  end.

(** The value of one entry of the select list on one row of the source:
    [None] when a hard cast fails.  [SAFE_CAST] gives NULL where [CAST]
    fails. *)
Definition eval_entry (svc : service) (r : gmap string string)
    (e : Sql.select_entry) : option (option string) :=
  match Sql.e_operand e with
  | Sql.ONull => Some None
  | Sql.OColumn _ col =>
      match r !! col with
      | None => Some None
      | Some v =>
          match sv_cast svc (Sql.e_type e) v with
          | Some x => Some x
          | None => if Sql.e_safe e then Some None else None
          end
      end
  end.

(** The row an INSERT makes of one row of the source: the value of the
    i-th entry goes to the i-th column of the list. *)
Fixpoint selected_row (svc : service) (cols : list string)
    (entries : list Sql.select_entry) (r : gmap string string)
  : option (gmap string string) :=
  match cols, entries with
  | [], [] => Some ∅
  | c :: cols', e :: entries' =>
      match eval_entry svc r e, selected_row svc cols' entries' r with
      | Some v, Some row => Some (set_column c v row)
      | _, _ => None
      end
  | _, _ => None
  end.

Fixpoint selected_rows (svc : service) (cols : list string)
    (entries : list Sql.select_entry) (rows : list (gmap string string))
  : option (list (gmap string string)) :=
  match rows with
  | [] => Some []
  | r :: rows' =>
      match selected_row svc cols entries r,
            selected_rows svc cols entries rows' with
      | Some row, Some out => Some (row :: out)
      | _, _ => None
      end
  end.

Definition row_admitted (sch : list SchemaField) (r : gmap string string)
  : bool :=
  forallb (fun f => negb (String.eqb (mode f) "REQUIRED")
                    || bool_decide (is_Some (r !! name f))) sch.

Definition entry_resolves (src_schema : list SchemaField) (alias : string)
    (e : Sql.select_entry) : bool :=
  match Sql.e_operand e with
  | Sql.ONull => true
  | Sql.OColumn a col => String.eqb a alias && has_column src_schema col
  end.

Definition exec_insert (i : Sql.insert_stmt) (w : warehouse)
  : result unit * warehouse :=
  match wh_tables w !! Sql.i_table i, wh_tables w !! Sql.i_source i with
  | Some tgt, Some src =>
      if bool_decide (NoDup (Sql.i_columns i))
         && forallb (has_column (td_schema tgt)) (Sql.i_columns i)
         && (List.length (Sql.i_columns i) =? List.length (Sql.i_entries i))%nat
         && forallb (entry_resolves (td_schema src) (Sql.i_alias i))
              (Sql.i_entries i)
      then
        match selected_rows (wh_service w) (Sql.i_columns i) (Sql.i_entries i)
                (td_rows src) with
        | None => (Raise (BadRequest "Bad value in CAST"), w)
        | Some new_rows =>
            if forallb (row_admitted (td_schema tgt)) new_rows then
              (Ok tt,
               with_tables w
                 (<[Sql.i_table i :=
                      mkTableData (td_schema tgt) (td_rows tgt ++ new_rows)]>
                    (wh_tables w)))
            else (Raise (BadRequest "Required field cannot be null"), w)
        end
      else (Raise (BadRequest "Invalid INSERT"), w)
  | None, _ =>
      (Raise (NotFound ("Not found: Table " +:+ Sql.i_table i)), w)
  | _, None =>
      (Raise (NotFound ("Not found: Table " +:+ Sql.i_source i)), w)
  end.

Definition exec_sql (text : string) (w : warehouse)
  : result unit * warehouse :=
  match Sql.parse text with
  | Some (Sql.AUpdate u) => exec_update u w
  | Some (Sql.AInsert i) => exec_insert i w
  | None => (Raise (BadRequest "Syntax error"), w)
  end.

(** The client sends the text of the statement. *)
Definition wh_query (q : statement) (w : warehouse)
  : result unit * warehouse :=
  exec_sql (sql_text q) w.

(** *** File system and clock *)

Definition wh_listdir (path : string) (w : warehouse)
  : result (list string) * warehouse :=
  match wh_dirs w !! path with
  | Some names => (Ok names, w)
  | None =>
      (Raise (FileNotFoundError ("No such file or directory: " +:+ path)), w)
  end.

Definition wh_remove (path : string) (w : warehouse)
  : result unit * warehouse :=
  match wh_files w !! path with
  | Some _ =>
      (Ok tt,
       mkWarehouse (wh_tables w)
         (map_imap
            (fun dir names =>
               Some (filter (fun n => OsPath.join dir n ≠ path) names))
            (wh_dirs w))
         (delete path (wh_files w)) (wh_clock w) (wh_service w))
  | None =>
      (Raise (FileNotFoundError ("No such file or directory: " +:+ path)), w)
  end.

Definition wh_now (w : warehouse) : datetime * warehouse := (wh_clock w, w).

Definition wh_today (w : warehouse) : date * warehouse :=
  (dt_date (wh_clock w), w).

(** The case table of this runtime reaches the ASCII letters only. *)
#[global] Instance warehouse_runtime : Runtime warehouse := {|
  rt_get_table := wh_get_table;
  rt_open := wh_open;
  rt_load_table_from_file := wh_load_table_from_file;
  rt_job_result := wh_job_result;
  rt_query := wh_query;
  rt_delete_table := wh_delete_table;
  rt_update_table := wh_update_table;
  rt_listdir := wh_listdir;
  rt_remove := wh_remove;
  rt_now := wh_now;
  rt_today := wh_today;
  str_lower := Py.lower;
  str_lower_ascii := fun s _ => eq_refl
|}.

(** The rows and the schema of a table, when it exists. *)
Definition rows_of (w : warehouse) (table_id : string)
  : option (list (gmap string string)) :=
  td_rows <$> wh_tables w !! table_id.

Definition schema_of (w : warehouse) (table_id : string)
  : option (list SchemaField) :=
  td_schema <$> wh_tables w !! table_id.

End Warehouse.

(** The entry the loop appends for one destination column. *)
Definition item_for (stg_cols_set : gset string) (col tgt_type : string)
  : select_item :=
  if decide (col ∈ stg_cols_set) then FromStaging col tgt_type
  else TypedNull col tgt_type.

(** ** Reading a trace *)

(** The calls that change the schema of [table_id]: a schema update, a
    load into it (the load of this program replaces the table) and a
    drop.  The two statements of [statement] are an INSERT and an
    UPDATE of rows; neither changes a schema. *)
Definition alters_schema (table_id : string) (e : event) : bool :=
  match e with
  | EUpdateTable t _ => bool_decide (table_ref t = table_id)
  | ELoadTableFromFile _ tid _ => bool_decide (tid = table_id)
  | EDeleteTable tid _ => bool_decide (tid = table_id)
  | _ => false
  end.

(** A merge statement is well formed for [target] when it inserts into
    [target] from another table, gives one entry per listed column, in
    the order of the list, and every entry that reads a staging column
    reads the column it fills. *)
Definition merge_statement (target : string) (q : statement) : Prop :=
  match q with
  | InsertSelect tgt cols items staging =>
      tgt = target ∧ staging ≠ target
      ∧ item_col <$> items = cols
      ∧ Forall (fun it => ∀ c, item_source it = Some c → item_col it = c) items
  | UpdateIngestionDate _ _ => False
  end.

Definition merge_event (target : string) (e : event) : Prop :=
  alters_schema target e = false
  ∧ match e with EQuery q => merge_statement target q | _ => True end.

(** The staging columns a statement reads. *)
Definition columns_read (q : statement) : list string :=
  match q with
  | InsertSelect _ _ items _ => omap item_source items
  | UpdateIngestionDate _ _ => []
  end.

(** The columns a statement writes. *)
Definition columns_written (q : statement) : list string :=
  match q with
  | InsertSelect _ cols _ _ => cols
  | UpdateIngestionDate _ _ => ["Ingestion_date"]
  end.

Definition remove_path (e : event) : option string :=
  match e with ERemove p => Some p | _ => None end.

Definition dropped_table (e : event) : option string :=
  match e with EDeleteTable t _ => Some t | _ => None end.

Definition upload_banner : string := "⬆️ Uploading: ".

(** The first line [upload_csv] logs: the file and the table of the
    upload it starts. *)
Definition upload_started (e : event) : option string :=
  match e with
  | ELog INFO msg =>
      if String.prefix upload_banner msg
      then Some (Py.drop (String.length upload_banner) msg)
      else None
  | _ => None
  end.

(** Neither a removal nor the first line of an upload. *)
Definition inner_event (e : event) : Prop :=
  remove_path e = None ∧ upload_started e = None.

(** What the trace of a batch shows for each considered file. *)
Definition upload_line {W : Type} {RT : Runtime W} (self : BigQueryUploader)
    (file_name : string) : string :=
  file_path_of self file_name +:+ " → " +:+ table_id_of self file_name.

(** Every call a computation makes satisfies [P], from every world. *)
Definition emits_only {W A} (P : event → Prop) (m : M W A) : Prop :=
  ∀ w, Forall P (m w).2.

(** A computation keeps [I]: from a world where [I] holds it ends, on
    either exit, in a world where [I] holds. *)
Definition preserves {W A} (I : W → Prop) (m : M W A) : Prop :=
  ∀ w, I w → I (m w).1.2.

(** From a world where [I] holds, the computation ends in a world
    where [I] holds, every call it makes satisfies [P], and a value it
    returns satisfies [Q]. *)
Definition triple {W A} (I : W → Prop) (P : event → Prop) (Q : A → Prop)
    (m : M W A) : Prop :=
  ∀ w, I w →
    I (m w).1.2 ∧ Forall P (m w).2 ∧ ∀ a, (m w).1.1 = Ok a → Q a.

(** The column list of every statement sent is the list of names of the
    schema [o]. *)
Definition writes_schema (o : option (list SchemaField)) (e : event) : Prop :=
  match e with
  | EQuery q => ∃ sch, o = Some sch ∧ columns_written q = name <$> sch
  | _ => True
  end.

(** When the computation returns normally from a world where [pre]
    holds, its value and the world it ends in satisfy [post]. *)
Definition hoare {W A} (pre : W → Prop) (m : M W A) (post : A → W → Prop)
  : Prop :=
  ∀ w, pre w → ∀ a, (m w).1.1 = Ok a → post a (m w).1.2.

(** The field [_ensure_ingestion_date_column] appends. *)
Definition marker_field : SchemaField := SchemaField2 "Ingestion_date" "DATE".

(** The eleven type names of [_CAST_TARGETS]. *)
Definition bigquery_types : list string :=
  [ "STRING"; "BOOL"; "INT64"; "FLOAT64"; "NUMERIC"; "BIGNUMERIC";
    "DATE"; "DATETIME"; "TIMESTAMP"; "TIME"; "GEOGRAPHY" ].

(** The [DATE] of the warehouse gives no NULL. *)
Definition date_never_null (w : Warehouse.warehouse) : Prop :=
  ∀ lit : string,
    Warehouse.sv_cast (Warehouse.wh_service w) "DATE" lit ≠ Some None.

(** The table exists, and if it has the marker column no row lacks a
    marker. *)
Definition fully_marked (table_id : string) (w : Warehouse.warehouse)
  : Prop :=
  ∃ t : Warehouse.table_data,
    Warehouse.wh_tables w !! table_id = Some t
    ∧ (has_ingestion_date (mkTable table_id (Warehouse.td_schema t)) = true →
       Forall (fun r : gmap string string => is_Some (r !! "Ingestion_date"))
         (Warehouse.td_rows t)).

(** ** Sample worlds *)

Module Sample.
Import Warehouse.

Definition clock : datetime := mkDatetime (mkDate 2026 11 3) 4 5 6.

Definition uploader : BigQueryUploader := mkUploader "proj" "ds" "/dl".

(** The service of the samples reads a file as lines of comma
    separated cells, the first line naming the columns; it loads every
    column as a STRING and an empty cell as NULL, and it accepts only
    the configuration of this program: one header row, autodetect. *)
Fixpoint split_acc (sep : ascii) (s acc : string) : list string :=
  match s with
  | EmptyString => [acc]
  | String c s' =>
      if Ascii.eqb c sep then acc :: split_acc sep s' ""
      else split_acc sep s' (acc +:+ String c "")
  end.

Definition split (sep : ascii) (s : string) : list string :=
  split_acc sep s "".

Definition csv_lines (bytes : string) : list string :=
  filter (fun l => l ≠ "") (split "010" bytes).

Definition csv_record (header cells : list string) : gmap string string :=
  list_to_map (filter (fun kv => kv.2 ≠ "") (zip header cells)).

Definition load_csv (cfg : LoadJobConfig) (bytes : string)
  : result table_data :=
  if autodetect cfg && (skip_leading_rows cfg =? 1)%nat then
    match csv_lines bytes with
    | [] => Raise (BadRequest "Empty file")
    | header :: rows =>
        let names := split "," header in
        Ok (mkTableData
              ((fun n => SchemaField2 n "STRING") <$> names)
              ((fun l => csv_record names (split "," l)) <$> rows))
    end
  else Raise (BadRequest "No schema specified on job").

Definition is_digit (c : ascii) : bool :=
  let n := nat_of_ascii c in (48 <=? n)%nat && (n <=? 57)%nat.

Fixpoint all_digits (s : string) : bool :=
  match s with
  | EmptyString => true
  | String c s' => is_digit c && all_digits s'
  end.

Definition is_int (s : string) : bool :=
  negb (String.eqb s "") && all_digits s.

(** [YYYY-MM-DD] *)
Definition is_date (s : string) : bool :=
  (String.length s =? 10)%nat
  && is_int (Py.take 4 s)
  && String.eqb (Py.take 1 (Py.drop 4 s)) "-"
  && is_int (Py.take 2 (Py.drop 5 s))
  && String.eqb (Py.take 1 (Py.drop 7 s)) "-"
  && is_int (Py.drop 8 s).

(** Digits, a point, digits. *)
Definition is_decimal (s : string) : bool :=
  match split "." s with
  | [a] => is_int a
  | [a; b] => is_int a && is_int b
  | _ => false
  end.

(** The casts of the samples: to STRING, INT64, NUMERIC and DATE, a
    value that does not read as the type being an error. *)
Definition cast (type v : string) : option (option string) :=
  if String.eqb type "STRING" then Some (Some v)
  else if String.eqb type "INT64" then
    if is_int v then Some (Some v) else None
  else if String.eqb type "NUMERIC" then
    if is_decimal v then Some (Some v) else None
  else if String.eqb type "DATE" then
    if is_date v then Some (Some v) else None
  else None.

Definition bigquery : service := mkService load_csv cast.

Definition orders_schema : list SchemaField :=
  [ mkSchemaField "id" "INT64" "REQUIRED";
    SchemaField2 "total" "NUMERIC";
    SchemaField2 "placed_at" "TIMESTAMP";
    SchemaField2 "Ingestion_date" "DATE" ].

Definition orders_rows : list (gmap string string) :=
  [ {[ "id" := "1"; "total" := "9.50"; "Ingestion_date" := "2026-10-31" ]};
    {[ "id" := "2" ]} ].

(** A destination whose marker column is spelled in lower case. *)
Definition plain_schema : list SchemaField :=
  [ SchemaField2 "id" "INT64"; SchemaField2 "ingestion_date" "DATE" ].

(** [Orders.CSV] has no [id] column, which [proj.ds.orders] requires;
    [leads.csv] fits [proj.ds.leads]. *)
Definition world : warehouse :=
  mkWarehouse
    {[ "proj.ds.orders" := mkTableData orders_schema orders_rows;
       "proj.ds.leads" := mkTableData plain_schema [] ]}
    {[ "/dl" := ["leads.csv"; "Orders.CSV"; "notes.txt"; "new.csv"] ]}
    {[ "/dl/leads.csv" := "id,phone" +:+ nl +:+ "7,555" +:+ nl;
       "/dl/Orders.CSV" := "total,extra" +:+ nl +:+ "1.5,x" +:+ nl;
       "/dl/new.csv" := "a,b" +:+ nl +:+ "1,x" +:+ nl +:+ ",y" +:+ nl ]}
    clock bigquery.

Definition orders_staging : string := "proj.ds.orders__stg_20261103040506".

End Sample.

(** ** Running computations *)

Section Running.

Context {W : Type} {RT : Runtime W}.

Lemma run_bind {A B} (m : M W A) (k : A → M W B) (w : W) :
  (m ≫= k) w =
    match m w with
    | (Ok a, w1, t1) =>
        match k a w1 with (r, w2, t2) => (r, w2, t1 ++ t2) end
    | (Raise e, w1, t1) => (Raise e, w1, t1)
    end.
Proof. reflexivity. Qed.

Lemma run_call {A} (ev : event) (f : W → result A * W) (w : W) :
  call ev f w = ((f w).1, (f w).2, [ev]).
Proof. unfold call. by destruct (f w). Qed.

Lemma emits_only_ret {A} P (a : A) : emits_only P (mret a : M W A).
Proof. intros w. constructor. Qed.

Lemma emits_only_lift {A} P (r : result A) :
  emits_only P (lift_result r : M W A).
Proof. intros w. constructor. Qed.

Lemma emits_only_call {A} (P : event → Prop) ev (f : W → result A * W) :
  P ev → emits_only P (call ev f).
Proof. intros H w. rewrite run_call. simpl. by constructor. Qed.

Lemma emits_only_call_total {A} (P : event → Prop) ev (f : W → A * W) :
  P ev → emits_only P (call_total ev f).
Proof.
  intros H w. unfold call_total. destruct (f w). simpl. by constructor.
Qed.

Lemma emits_only_info (P : event → Prop) msg :
  P (ELog INFO msg) → emits_only P (logger_info msg : M W unit).
Proof. intros H w. simpl. by constructor. Qed.

Lemma emits_only_error (P : event → Prop) msg :
  P (ELog ERROR msg) → emits_only P (logger_error msg : M W unit).
Proof. intros H w. simpl. by constructor. Qed.

Lemma emits_only_bind {A B} P (m : M W A) (k : A → M W B) :
  emits_only P m → (∀ a, emits_only P (k a)) → emits_only P (m ≫= k).
Proof.
  intros Hm Hk w. rewrite run_bind. specialize (Hm w).
  destruct (m w) as [[[a | e] w1] t1]; simpl in *; [| done].
  specialize (Hk a w1). destruct (k a w1) as [[r w2] t2]; simpl in *.
  by apply Forall_app.
Qed.

(** The continuation of a pure step runs only on its result. *)
Lemma emits_only_bind_lift {A B} P (r : result A) (k : A → M W B) :
  (∀ a, r = Ok a → emits_only P (k a)) →
  emits_only P (lift_result r ≫= k).
Proof.
  intros Hk w. rewrite run_bind. unfold lift_result.
  destruct r as [a | e]; simpl; [| constructor].
  specialize (Hk a eq_refl w). by destruct (k a w) as [[r w2] t2].
Qed.

Lemma emits_only_try_except {A} P (body : M W A) (handler : exn → M W A) :
  emits_only P body → (∀ e, emits_only P (handler e)) →
  emits_only P (try_except body handler).
Proof.
  intros Hb Hh w. unfold try_except. specialize (Hb w).
  destruct (body w) as [[[a | e] w1] t1]; simpl in *; [done |].
  specialize (Hh e w1). destruct (handler e w1) as [[r w2] t2]; simpl in *.
  by apply Forall_app.
Qed.

Lemma emits_only_try_finally {A} P (body : M W A) (fin : M W unit) :
  emits_only P body → emits_only P fin →
  emits_only P (try_finally body fin).
Proof.
  intros Hb Hf w. unfold try_finally. specialize (Hb w).
  destruct (body w) as [[r w1] t1]; simpl in *.
  specialize (Hf w1). destruct (fin w1) as [[[[] | e] w2] t2]; simpl in *;
    by apply Forall_app.
Qed.

Lemma emits_only_with_open {A} P path (body : M W A) :
  P (EOpen path) → P (EClose path) → emits_only P body →
  emits_only P (with_open path body).
Proof.
  intros Ho Hc Hb. unfold with_open.
  apply emits_only_bind; [by apply emits_only_call |]. intros _.
  apply emits_only_try_finally; [done |]. intros w. simpl.
  by repeat constructor.
Qed.

Lemma emits_only_for_each {A} P (xs : list A) (body : A → M W unit) :
  (∀ x, emits_only P (body x)) → emits_only P (for_each xs body).
Proof.
  intros Hb. induction xs as [| x xs IH]; simpl.
  - apply emits_only_ret.
  - apply (emits_only_bind P (body x)); [apply Hb | intros _; apply IH].
Qed.

Lemma emits_only_get_table P table_id :
  P (EGetTable table_id) → emits_only P (get_table table_id).
Proof. intros H. by apply emits_only_call. Qed.

Lemma emits_only_table_exists P table_id :
  P (EGetTable table_id) → emits_only P (table_exists table_id).
Proof.
  intros H. apply emits_only_try_except.
  - apply emits_only_bind; [by apply emits_only_get_table |].
    intros _; apply emits_only_ret.
  - intros _; apply emits_only_ret.
Qed.

End Running.

(** ** The cast resolver *)

Section CastResolver.

Lemma cast_targets_lookup (k : string) :
  _CAST_TARGETS !! k =
    snd <$> List.find (fun kv => String.eqb k kv.1) _CAST_TARGETS_items.
Proof.
  unfold _CAST_TARGETS, dict_of_items, _CAST_TARGETS_items. simpl.
  repeat (rewrite lookup_insert; case_decide as Hk;
          [subst k; reflexivity |
           apply String.eqb_neq in Hk; rewrite String.eqb_sym in Hk;
           rewrite Hk; clear Hk]).
  apply lookup_empty.
Qed.

(** The resolved target is one of the eleven BigQuery type names. *)
Lemma cast_target_range (t : string) :
  cast_target t ∈ snd <$> _CAST_TARGETS_items.
Proof.
  unfold cast_target. rewrite cast_targets_lookup.
  unfold _CAST_TARGETS_items; simpl.
  repeat (destruct (String.eqb (Py.upper t) _);
          [simpl; set_solver |]).
  simpl; set_solver.
Qed.

Lemma cast_target_string_iff (t : string) :
  cast_target t = "STRING" ↔ Py.upper t = "STRING" ∨ ¬ recognized t.
Proof.
  unfold recognized, cast_target. rewrite cast_targets_lookup.
  unfold _CAST_TARGETS_items; simpl.
  destruct (String.eqb_spec (Py.upper t) "STRING") as [-> | Hs];
    [simpl; tauto |].
  repeat (destruct (String.eqb (Py.upper t) _);
          [simpl; split;
           [discriminate | intros [? | Hn]; [done | destruct Hn; eauto]] |]).
  simpl. split; [intros _; right; intros [? ?]; discriminate | done].
Qed.

Lemma upper_char_idemp (c : ascii) :
  Py.upper_char (Py.upper_char c) = Py.upper_char c.
Proof.
  destruct c as [[] [] [] [] [] [] [] []]; reflexivity.
Qed.

Lemma upper_idemp (s : string) : Py.upper (Py.upper s) = Py.upper s.
Proof.
  induction s as [| c s IH]; simpl; [done |].
  by rewrite upper_char_idemp, IH.
Qed.

Lemma upper_lower_char (c : ascii) :
  Py.upper_char (Py.lower_char c) = Py.upper_char c.
Proof.
  destruct c as [[] [] [] [] [] [] [] []]; reflexivity.
Qed.

Lemma upper_lower (s : string) : Py.upper (Py.lower s) = Py.upper s.
Proof.
  induction s as [| c s IH]; simpl; [done |].
  by rewrite upper_lower_char, IH.
Qed.

Lemma safe_cast_expr_upper (a c t1 t2 : string) :
  Py.upper t1 = Py.upper t2 → _safe_cast_expr a c t1 = _safe_cast_expr a c t2.
Proof.
  intros H. unfold _safe_cast_expr, cast_target. by rewrite H.
Qed.

End CastResolver.

(** C2. For every destination type tag the resolver gives a hard [CAST]
    to STRING when the tag resolves to STRING, a [SAFE_CAST] to the
    resolved target for every other recognized tag, and for a tag that
    is not recognized exactly what it gives for the tag STRING. *)
Theorem safe_cast_expr_by_tag (staging_alias col_name tag : string) :
  (cast_target tag = "STRING" →
     _safe_cast_expr staging_alias col_name tag =
       "CAST(" +:+ staging_alias +:+ "." +:+ col_name +:+ " AS STRING) AS "
         +:+ col_name)
  ∧ (recognized tag → cast_target tag ≠ "STRING" →
     _CAST_TARGETS !! Py.upper tag = Some (cast_target tag)
     ∧ _safe_cast_expr staging_alias col_name tag =
         "SAFE_CAST(" +:+ staging_alias +:+ "." +:+ col_name +:+ " AS "
           +:+ cast_target tag +:+ ") AS " +:+ col_name)
  ∧ (¬ recognized tag →
     _safe_cast_expr staging_alias col_name tag =
       _safe_cast_expr staging_alias col_name "STRING")
  ∧ (cast_target tag = "STRING" ↔ Py.upper tag = "STRING" ∨ ¬ recognized tag).
Proof.
  split; [| split; [| split]].
  - intros H. unfold _safe_cast_expr. by rewrite H.
  - intros [v Hv] Hne. split.
    + unfold cast_target. by rewrite Hv.
    + unfold _safe_cast_expr.
      apply String.eqb_neq in Hne. by rewrite Hne.
  - intros Hn.
    assert (Ht : cast_target tag = "STRING")
      by (apply cast_target_string_iff; by right).
    unfold _safe_cast_expr. rewrite Ht. reflexivity.
  - apply cast_target_string_iff.
Qed.

Lemma safe_cast_expr_by_tag_witness :
  _safe_cast_expr "stg" "id" "STRING" = "CAST(stg.id AS STRING) AS id"
  ∧ _safe_cast_expr "stg" "id" "Integer" = "SAFE_CAST(stg.id AS INT64) AS id"
  ∧ _safe_cast_expr "stg" "id" "JSON" = _safe_cast_expr "stg" "id" "STRING".
Proof.
  split; [| split].
  - apply (proj1 (safe_cast_expr_by_tag "stg" "id" "STRING")).
    vm_compute; reflexivity.
  - apply (proj1 (proj2 (safe_cast_expr_by_tag "stg" "id" "Integer"))).
    + vm_compute; eauto.
    + vm_compute; discriminate.
  - apply (proj1 (proj2 (proj2 (safe_cast_expr_by_tag "stg" "id" "JSON")))).
    vm_compute. intros [v Hv]; discriminate.
Defined.

(** C10. The tag is matched without regard to case (two tags with the
    same upper-cased form give the same expression, so [int64] and
    [INT64] agree), and the legacy tags BOOLEAN, INTEGER and FLOAT give
    the expressions of BOOL, INT64 and FLOAT64. *)
Theorem safe_cast_expr_case_and_aliases (staging_alias col_name : string) :
  (∀ t1 t2 : string, Py.upper t1 = Py.upper t2 →
     _safe_cast_expr staging_alias col_name t1 =
       _safe_cast_expr staging_alias col_name t2)
  ∧ (∀ t : string,
       _safe_cast_expr staging_alias col_name (Py.lower t) =
         _safe_cast_expr staging_alias col_name t
       ∧ _safe_cast_expr staging_alias col_name (Py.upper t) =
           _safe_cast_expr staging_alias col_name t)
  ∧ _safe_cast_expr staging_alias col_name "int64" =
      _safe_cast_expr staging_alias col_name "INT64"
  ∧ _safe_cast_expr staging_alias col_name "BOOLEAN" =
      _safe_cast_expr staging_alias col_name "BOOL"
  ∧ _safe_cast_expr staging_alias col_name "INTEGER" =
      _safe_cast_expr staging_alias col_name "INT64"
  ∧ _safe_cast_expr staging_alias col_name "FLOAT" =
      _safe_cast_expr staging_alias col_name "FLOAT64".
Proof.
  split; [exact (safe_cast_expr_upper staging_alias col_name) |].
  split.
  { intros t; split; apply safe_cast_expr_upper.
    - apply upper_lower.
    - apply upper_idemp. }
  repeat split; reflexivity.
Qed.

Lemma safe_cast_expr_case_and_aliases_witness :
  _safe_cast_expr "stg" "total" "nUmEriC" =
    _safe_cast_expr "stg" "total" "NUMERIC".
Proof.
  apply (proj1 (safe_cast_expr_case_and_aliases "stg" "total")).
  reflexivity.
Defined.

(** ** The existence oracle *)

(** C5. [table_exists] answers true exactly when the metadata fetch
    succeeds and false when the fetch raises, whatever the exception;
    it never raises itself. *)
Theorem table_exists_never_raises {W : Type} {RT : Runtime W}
    (table_id : string) (w : W) :
  table_exists table_id w =
    match rt_get_table table_id w with
    | (Ok _, w1) => (Ok true, w1, [EGetTable table_id])
    | (Raise _, w1) => (Ok false, w1, [EGetTable table_id])
    end
  ∧ (∀ e : exn, (table_exists table_id w).1.1 ≠ Raise e).
Proof.
  unfold table_exists, try_except. rewrite run_bind.
  unfold get_table. rewrite run_call.
  destruct (rt_get_table table_id w) as [[t | e] w1]; simpl;
    split; try reflexivity; intros e'; discriminate.
Qed.

(** ** The ingestion marker *)

Lemma has_ingestion_date_false (table : Table) :
  Forall (fun f => name f ≠ "Ingestion_date") (schema table) →
  has_ingestion_date table = false.
Proof.
  unfold has_ingestion_date. induction 1 as [| f fs Hf _ IH]; simpl; [done |].
  apply String.eqb_neq in Hf. by rewrite Hf.
Qed.

(** C8. When the schema of the destination has no field named exactly
    [Ingestion_date], the setter only reads the metadata: it sends no
    query, leaves the world as the read left it, and returns normally. *)
Theorem set_ingestion_date_absent_noop {W : Type} {RT : Runtime W}
    (table_id : string) (date_value : date) (w w1 : W) (table : Table) :
  rt_get_table table_id w = (Ok table, w1) →
  Forall (fun f => name f ≠ "Ingestion_date") (schema table) →
  _set_ingestion_date_if_exists table_id date_value w =
    (Ok tt, w1, [EGetTable table_id]).
Proof.
  intros Hget Hno. unfold _set_ingestion_date_if_exists.
  rewrite run_bind. unfold get_table. rewrite run_call, Hget. simpl.
  by rewrite (has_ingestion_date_false _ Hno).
Qed.

Lemma set_ingestion_date_absent_noop_witness :
  _set_ingestion_date_if_exists "proj.ds.leads" (mkDate 2026 11 3)
    Sample.world =
  (Ok tt, Sample.world, [EGetTable "proj.ds.leads"]).
Proof.
  apply (set_ingestion_date_absent_noop "proj.ds.leads" (mkDate 2026 11 3)
           Sample.world Sample.world
           (mkTable "proj.ds.leads" Sample.plain_schema)).
  - vm_compute. reflexivity.
  - repeat constructor; discriminate.
Defined.

(** ** Strings *)

Section Strings.

Local Arguments String.append !_ _ / : simpl nomatch.

Lemma app_assoc_str (a b c : string) : (a +:+ b) +:+ c = a +:+ (b +:+ c).
Proof. induction a as [| x a IH]; simpl; [done | by rewrite IH]. Qed.

Lemma app_empty_r (s : string) : s +:+ "" = s.
Proof. induction s as [| c s IH]; simpl; [done | by rewrite IH]. Qed.

Lemma has_char_app (c : ascii) (a b : string) :
  has_char c (a +:+ b) = has_char c a || has_char c b.
Proof.
  induction a as [| x a IH]; simpl; [done |]. by rewrite IH, orb_assoc.
Qed.

Lemma has_char_join (c : ascii) (sep : string) (parts : list string) :
  has_char c sep = false →
  Forall (fun p => has_char c p = false) parts →
  has_char c (Py.join sep parts) = false.
Proof.
  intros Hsep. induction 1 as [| p rest Hp Hrest IH]; [done |].
  destruct rest as [| p' rest]; [done |].
  change (Py.join sep (p :: p' :: rest))
    with (p +:+ sep +:+ Py.join sep (p' :: rest)).
  by rewrite !has_char_app, Hp, Hsep, IH.
Qed.

End Strings.

(** ** The text of the statements, as the warehouse reads it *)

Section SqlText.
Import Sql.

Lemma lex_app_eq (a b : string) (m m' : lex_mode) (ts : list token) :
  scan a m = (ts, m') → lex (a +:+ b) m = ts ++ lex b m'.
Proof.
  revert m ts m'. induction a as [| c a IH]; intros m ts m' H; simpl in H.
  - by inversion H.
  - inversion H; subst.
    change (String c a +:+ b) with (String c (a +:+ b)). cbn [lex].
    rewrite (IH (step c m).2 (scan a (step c m).2).1 (scan a (step c m).2).2)
      by (by destruct (scan a (step c m).2)).
    by rewrite app_assoc.
Qed.

Lemma scan_quoted (body acc : string) :
  has_char "`" body = false →
  scan body (InQuote acc) = ([], InQuote (acc +:+ body)).
Proof.
  revert acc. induction body as [| c body IH]; intros acc H; simpl in *.
  - by rewrite app_empty_r.
  - apply orb_false_iff in H as [Hc Hb]. rewrite Hc. simpl.
    rewrite (IH _ Hb). simpl. f_equal. f_equal.
    by rewrite app_assoc_str.
Qed.

Lemma scan_string (body acc : string) :
  has_char "'" body = false →
  scan body (InString acc) = ([], InString (acc +:+ body)).
Proof.
  revert acc. induction body as [| c body IH]; intros acc H; simpl in *.
  - by rewrite app_empty_r.
  - apply orb_false_iff in H as [Hc Hb]. rewrite Hc. simpl.
    rewrite (IH _ Hb). simpl. f_equal. f_equal.
    by rewrite app_assoc_str.
Qed.

Lemma pretty_N_char_digit (x : N) : Ascii.eqb (pretty_N_char x) "'" = false.
Proof. unfold pretty_N_char. repeat case_match; reflexivity. Qed.

Lemma pretty_N_go_no_quote (x : N) (s : string) :
  has_char "'" s = false → has_char "'" (pretty_N_go x s) = false.
Proof.
  revert s. induction (N.lt_wf_0 x) as [x _ IH]. intros s Hs.
  destruct (decide (0 < x)%N) as [Hx | Hx].
  - rewrite pretty_N_go_step by done. apply IH.
    + apply N.div_lt; lia.
    + simpl. by rewrite pretty_N_char_digit.
  - assert (x = 0%N) as -> by lia. by rewrite pretty_N_go_0.
Qed.

Lemma dec_no_quote (width n : nat) : has_char "'" (dec width n) = false.
Proof.
  unfold dec, zfill. rewrite has_char_app.
  rewrite has_char_join; [| done |].
  - simpl. unfold pretty, pretty_nat, pretty, pretty_N.
    case_decide; [done |]. by apply pretty_N_go_no_quote.
  - apply Forall_forall. intros p Hp. apply elem_of_replicate in Hp as [-> _].
    done.
Qed.

Lemma str_date_no_quote (d : date) : has_char "'" (str_date d) = false.
Proof.
  unfold str_date. by rewrite !has_char_app, !dec_no_quote.
Qed.

Lemma tokens_update_sql (table_id : string) (d : date) :
  has_char "`" table_id = false →
  tokens (update_sql table_id d) =
    [ TWord "UPDATE"; TQuoted table_id; TWord "SET"; TWord "Ingestion_date";
      TEq; TWord "DATE"; TLParen; TString (str_date d); TRParen;
      TWord "WHERE"; TWord "Ingestion_date"; TWord "IS"; TWord "NULL" ].
Proof.
  intros Hq. unfold tokens, update_sql.
  erewrite lex_app_eq by (vm_compute; reflexivity).
  erewrite lex_app_eq by (vm_compute; reflexivity).
  erewrite lex_app_eq by (by apply scan_quoted).
  erewrite lex_app_eq by (vm_compute; reflexivity).
  erewrite lex_app_eq by (vm_compute; reflexivity).
  erewrite lex_app_eq by (vm_compute; reflexivity).
  erewrite lex_app_eq by (apply scan_string, str_date_no_quote).
  erewrite lex_app_eq by (vm_compute; reflexivity).
  erewrite lex_app_eq by (vm_compute; reflexivity).
  erewrite lex_app_eq by (vm_compute; reflexivity).
  erewrite lex_app_eq by (vm_compute; reflexivity).
  reflexivity.
Qed.

Lemma parse_update_sql (table_id : string) (d : date) :
  has_char "`" table_id = false →
  parse (update_sql table_id d) =
    Some (AUpdate (mkUpdate table_id "Ingestion_date" (str_date d)
                     "Ingestion_date" true)).
Proof.
  intros Hq. unfold parse. by rewrite tokens_update_sql.
Qed.

End SqlText.

(** ** What the setter does to the rows *)

Section Marker.
Import Warehouse.

Lemma has_ingestion_date_column (table_id : string) (sch : list SchemaField) :
  has_ingestion_date (mkTable table_id sch) = has_column sch "Ingestion_date".
Proof.
  unfold has_ingestion_date, has_column. simpl.
  induction sch as [| f sch IH]; [done |]. simpl. rewrite IH.
  destruct (String.eqb_spec (name f) "Ingestion_date") as [E | E]; simpl.
  - symmetry. apply bool_decide_eq_true. rewrite E. apply list_elem_of_here.
  - apply bool_decide_ext. rewrite elem_of_cons.
    split; [by right | intros [H | H]; [congruence | done]].
Qed.

Lemma with_tables_id (w : warehouse) : with_tables w (wh_tables w) = w.
Proof. by destruct w. Qed.

(** The row the UPDATE of the setter leaves: a marked row as it is, an
    unmarked row with the value of the date. *)
Lemma update_row_marker (table_id lit : string) (v : option string)
    (r : gmap string string) :
  update_row (Sql.mkUpdate table_id "Ingestion_date" lit "Ingestion_date" true)
    v r =
  match r !! "Ingestion_date" with
  | Some _ => r
  | None => set_column "Ingestion_date" v r
  end.
Proof.
  unfold update_row. simpl.
  destruct (r !! "Ingestion_date") as [x |] eqn:Hr; by rewrite ?Hr.
Qed.

Lemma update_rows_marked (table_id lit : string) (v : option string)
    (rows : list (gmap string string)) :
  Forall (fun r : gmap string string => is_Some (r !! "Ingestion_date")) rows →
  update_row (Sql.mkUpdate table_id "Ingestion_date" lit "Ingestion_date" true)
    v <$> rows = rows.
Proof.
  induction 1 as [| r rows [x Hr] _ IH]; [done |].
  rewrite fmap_cons, IH, update_row_marker, Hr. reflexivity.
Qed.

(** The query of the setter, as the warehouse executes its text. *)
Lemma wh_query_update (w : warehouse) (table_id : string) (d : date)
    (t : table_data) :
  has_char "`" table_id = false →
  wh_tables w !! table_id = Some t →
  has_ingestion_date (mkTable table_id (td_schema t)) = true →
  wh_query (UpdateIngestionDate table_id d) w =
    match sv_cast (wh_service w) "DATE" (str_date d) with
    | None => (Raise (BadRequest "Invalid date"), w)
    | Some v =>
        (Ok tt,
         with_tables w
           (<[table_id :=
                mkTableData (td_schema t)
                  (update_row
                     (Sql.mkUpdate table_id "Ingestion_date" (str_date d)
                        "Ingestion_date" true) v <$> td_rows t)]>
              (wh_tables w)))
    end.
Proof.
  intros Hq Ht Hcol. unfold wh_query, exec_sql. simpl sql_text.
  rewrite (parse_update_sql _ _ Hq). unfold exec_update. simpl.
  rewrite Ht. rewrite has_ingestion_date_column in Hcol. rewrite Hcol.
  reflexivity.
Qed.

(** One run of the setter against a table that has the column. *)
Lemma set_ingestion_date_run (w : warehouse) (table_id : string)
    (d : date) (t : table_data) :
  has_char "`" table_id = false →
  wh_tables w !! table_id = Some t →
  has_ingestion_date (mkTable table_id (td_schema t)) = true →
  (_set_ingestion_date_if_exists table_id d w).1 =
    wh_query (UpdateIngestionDate table_id d) w.
Proof.
  intros Hq Ht Hcol. unfold _set_ingestion_date_if_exists.
  rewrite run_bind. unfold get_table. rewrite run_call.
  change (rt_get_table table_id w) with (wh_get_table table_id w).
  unfold wh_get_table. rewrite Ht. cbn [fst snd schema]. rewrite Hcol.
  cbn [negb]. rewrite run_bind, run_call.
  change (rt_query ?q w) with (wh_query q w).
  by destruct (wh_query (UpdateIngestionDate table_id d) w) as [[[] | e] w1].
Qed.

End Marker.

(** C7. On a destination that carries the marker column, the UPDATE the
    setter sends, executed from its text, rewrites exactly the rows
    whose marker is NULL: a row that already has a marker is left as it
    is and a row without one gets the value of the date.  A second run
    with the same date returns normally and leaves the warehouse as the
    first run left it, and so does a run with any other date, whatever
    its outcome.  The table identity holds no back quote (the text
    quotes it with back quotes) and the warehouse reads the date. *)
Theorem set_ingestion_date_idempotent (w : Warehouse.warehouse)
    (table_id : string) (d d' : date) (t : Warehouse.table_data)
    (v : string) :
  has_char "`" table_id = false →
  Warehouse.wh_tables w !! table_id = Some t →
  has_ingestion_date (mkTable table_id (Warehouse.td_schema t)) = true →
  Warehouse.sv_cast (Warehouse.wh_service w) "DATE" (str_date d)
    = Some (Some v) →
  ∃ w1 : Warehouse.warehouse,
    (_set_ingestion_date_if_exists table_id d w).1 = (Ok tt, w1)
    ∧ (_set_ingestion_date_if_exists table_id d w1).1 = (Ok tt, w1)
    ∧ (_set_ingestion_date_if_exists table_id d' w1).1.2 = w1
    ∧ Warehouse.schema_of w1 table_id = Some (Warehouse.td_schema t)
    ∧ (∀ other, other ≠ table_id →
         Warehouse.wh_tables w1 !! other = Warehouse.wh_tables w !! other)
    ∧ ∃ rows1, Warehouse.rows_of w1 table_id = Some rows1
        ∧ List.length rows1 = List.length (Warehouse.td_rows t)
        ∧ ∀ (i : nat) (r : gmap string string),
            Warehouse.td_rows t !! i = Some r →
            rows1 !! i =
              Some (match r !! "Ingestion_date" with
                    | Some _ => r
                    | None => <["Ingestion_date" := v]> r
                    end).
Proof.
  intros Hq Ht Hcol Hcast.
  set (u := Sql.mkUpdate table_id "Ingestion_date" (str_date d)
              "Ingestion_date" true).
  set (t1 := Warehouse.mkTableData (Warehouse.td_schema t)
               (Warehouse.update_row u (Some v) <$> Warehouse.td_rows t)).
  set (w1 := Warehouse.with_tables w (<[table_id := t1]> (Warehouse.wh_tables w))).
  assert (Ht1 : Warehouse.wh_tables w1 !! table_id = Some t1)
    by (simpl; apply lookup_insert_eq).
  assert (Hmarked : Forall (fun r : gmap string string =>
                              is_Some (r !! "Ingestion_date"))
                      (Warehouse.td_rows t1)).
  { unfold t1. simpl. apply Forall_fmap, Forall_forall. intros r _. simpl.
    unfold u. rewrite update_row_marker.
    destruct (r !! "Ingestion_date") as [x |] eqn:Hr; simpl.
    - rewrite Hr. eauto.
    - rewrite lookup_insert_eq. eauto. }
  assert (Hagain : ∀ d2 v2,
            Warehouse.with_tables w1
              (<[table_id :=
                   Warehouse.mkTableData (Warehouse.td_schema t1)
                     (Warehouse.update_row
                        (Sql.mkUpdate table_id "Ingestion_date" (str_date d2)
                           "Ingestion_date" true) v2
                        <$> Warehouse.td_rows t1)]>
                 (Warehouse.wh_tables w1)) = w1).
  { intros d2 v2. rewrite (update_rows_marked _ _ _ _ Hmarked).
    replace (Warehouse.mkTableData (Warehouse.td_schema t1)
               (Warehouse.td_rows t1)) with t1 by (by destruct t1).
    rewrite (insert_id _ _ _ Ht1). apply with_tables_id. }
  exists w1. split; [| split; [| split; [| split; [| split]]]].
  - rewrite (set_ingestion_date_run w table_id d t Hq Ht Hcol).
    rewrite (wh_query_update w table_id d t Hq Ht Hcol), Hcast. reflexivity.
  - rewrite (set_ingestion_date_run w1 table_id d t1 Hq Ht1 Hcol).
    rewrite (wh_query_update w1 table_id d t1 Hq Ht1 Hcol).
    change (Warehouse.wh_service w1) with (Warehouse.wh_service w).
    rewrite Hcast. by rewrite Hagain.
  - rewrite (set_ingestion_date_run w1 table_id d' t1 Hq Ht1 Hcol).
    rewrite (wh_query_update w1 table_id d' t1 Hq Ht1 Hcol).
    destruct (Warehouse.sv_cast (Warehouse.wh_service w1) "DATE"
                (str_date d')) as [v' |]; simpl; [apply Hagain | done].
  - unfold Warehouse.schema_of. by rewrite Ht1.
  - intros other Hne. simpl. by apply lookup_insert_ne.
  - exists (Warehouse.td_rows t1). split; [| split].
    + unfold Warehouse.rows_of. by rewrite Ht1.
    + unfold t1. simpl. apply length_fmap.
    + intros i r Hr. unfold t1. simpl. rewrite list_lookup_fmap, Hr. simpl.
      unfold u. by rewrite update_row_marker.
Qed.

Lemma set_ingestion_date_idempotent_witness :
  ∃ w1 : Warehouse.warehouse,
    (_set_ingestion_date_if_exists "proj.ds.orders" (mkDate 2026 11 3)
       Sample.world).1 = (Ok tt, w1)
    ∧ (_set_ingestion_date_if_exists "proj.ds.orders" (mkDate 2026 11 3)
         w1).1 = (Ok tt, w1)
    ∧ Warehouse.rows_of w1 "proj.ds.orders" =
        Some [ {[ "id" := "1"; "total" := "9.50";
                  "Ingestion_date" := "2026-10-31" ]};
               {[ "id" := "2"; "Ingestion_date" := "2026-11-03" ]} ].
Proof.
  destruct (set_ingestion_date_idempotent Sample.world "proj.ds.orders"
              (mkDate 2026 11 3) (mkDate 2026 11 4)
              (Warehouse.mkTableData Sample.orders_schema Sample.orders_rows)
              "2026-11-03")
    as (w1 & H1 & H2 & _).
  - vm_compute. reflexivity.
  - vm_compute. reflexivity.
  - vm_compute. reflexivity.
  - vm_compute. reflexivity.
  - exists w1. split; [assumption | split; [assumption |]].
    assert (w1 = (_set_ingestion_date_if_exists "proj.ds.orders"
                    (mkDate 2026 11 3) Sample.world).1.2) as ->
      by (by rewrite H1).
    vm_compute. reflexivity.
Defined.

(** ** The select list of the merge *)

Section SelectList.

Lemma dict_fold_absent {V} (items : list (string * V)) (m : gmap string V)
    (k : string) :
  k ∉ items.*1 →
  foldl (fun m kv => <[kv.1 := kv.2]> m) m items !! k = m !! k.
Proof.
  revert m. induction items as [| [k' v'] items IH]; intros m Hk; [done |].
  simpl in *. apply not_elem_of_cons in Hk as [Hne Hk].
  rewrite IH by done. by apply lookup_insert_ne.
Qed.

Lemma dict_fold_present {V} (items : list (string * V)) (m : gmap string V)
    (k : string) :
  k ∈ items.*1 →
  is_Some (foldl (fun m kv => <[kv.1 := kv.2]> m) m items !! k).
Proof.
  revert m. induction items as [| [k' v'] items IH]; intros m Hk; simpl in *.
  - by apply elem_of_nil in Hk.
  - destruct (decide (k ∈ items.*1)) as [Hin | Hout]; [by apply IH |].
    apply elem_of_cons in Hk as [-> | Hin]; [| done].
    rewrite dict_fold_absent by done. rewrite lookup_insert_eq. eauto.
Qed.

Lemma dict_fold_unique {V} (items : list (string * V)) (m : gmap string V)
    (k : string) (v : V) :
  NoDup items.*1 → (k, v) ∈ items →
  foldl (fun m kv => <[kv.1 := kv.2]> m) m items !! k = Some v.
Proof.
  revert m. induction items as [| [k' v'] items IH]; intros m Hnd Hin.
  - by apply elem_of_nil in Hin.
  - simpl in *. apply NoDup_cons in Hnd as [Hk' Hnd].
    apply elem_of_cons in Hin as [Heq | Hin].
    + injection Heq as -> ->.
      rewrite dict_fold_absent by done. apply lookup_insert_eq.
    + by apply IH.
Qed.

Lemma tgt_types_present (tgt_table : Table) (col : string) :
  col ∈ tgt_cols_of tgt_table → is_Some (tgt_types_of tgt_table !! col).
Proof.
  intros Hin. apply dict_fold_present.
  rewrite <- list_fmap_compose. exact Hin.
Qed.

Lemma tgt_types_unique (tgt_table : Table) (f : SchemaField) :
  NoDup (tgt_cols_of tgt_table) → f ∈ schema tgt_table →
  tgt_types_of tgt_table !! name f = Some (field_type f).
Proof.
  intros Hnd Hin. apply dict_fold_unique.
  - rewrite <- list_fmap_compose. exact Hnd.
  - apply (list_elem_of_fmap_2 (fun f => (name f, field_type f))) in Hin.
    exact Hin.
Qed.

Lemma item_for_col stg col ty : item_col (item_for stg col ty) = col.
Proof. unfold item_for. by case_decide. Qed.

Lemma item_for_source stg col ty c :
  item_source (item_for stg col ty) = Some c → c = col ∧ col ∈ stg.
Proof.
  unfold item_for. case_decide; simpl; [| discriminate].
  intros [= <-]. done.
Qed.

(** The loop never meets a missing key when every column has a type,
    and it appends one entry per column, in order. *)
Lemma select_items_loop_spec (cols : list string)
    (tgt_types : gmap string string) (stg : gset string)
    (acc : list select_item) :
  Forall (fun c => is_Some (tgt_types !! c)) cols →
  select_items_loop cols tgt_types stg acc =
    Ok (acc ++ ((fun c => item_for stg c (default "" (tgt_types !! c)))
                  <$> cols)).
Proof.
  revert acc. induction cols as [| c cols IH]; intros acc Hall; simpl.
  - by rewrite app_nil_r.
  - apply Forall_cons in Hall as [[ty Hty] Hall].
    unfold getitem. rewrite Hty. simpl.
    rewrite IH by done. by rewrite <- app_assoc.
Qed.

Lemma select_items_spec (tgt_table stg_table : Table) :
  select_items tgt_table stg_table =
    Ok ((fun c => item_for (stg_cols_set_of stg_table) c
                    (default "" (tgt_types_of tgt_table !! c)))
          <$> tgt_cols_of tgt_table).
Proof.
  unfold select_items. rewrite select_items_loop_spec; [done |].
  apply Forall_forall. intros c Hc. by apply tgt_types_present.
Qed.

Lemma select_items_cols (tgt_table stg_table : Table)
    (items : list select_item) :
  select_items tgt_table stg_table = Ok items →
  item_col <$> items = tgt_cols_of tgt_table
  ∧ Forall (fun it => ∀ c, item_source it = Some c →
              item_col it = c ∧ c ∈ tgt_cols_of tgt_table
              ∧ c ∈ stg_cols_set_of stg_table) items.
Proof.
  rewrite select_items_spec. intros [= <-]. split.
  - rewrite <- list_fmap_compose.
    rewrite <- (list_fmap_id (tgt_cols_of tgt_table)) at 2.
    apply list_fmap_ext. intros i c _. apply item_for_col.
  - apply Forall_fmap, Forall_forall. intros c Hc s Hs. simpl in *.
    apply item_for_source in Hs as [-> Hin].
    rewrite item_for_col. done.
Qed.

End SelectList.

(** C1. For a destination schema with distinct field names, the select
    list has one entry per destination field, in schema order: the cast
    of the staging column when the staging schema has a column of
    exactly that name, and otherwise NULL cast to the resolved target
    of the field's type.  The column list of the INSERT is the list of
    destination names in the same order, so the two lists agree
    position by position and have the length of the destination schema,
    whatever other columns the staging schema has. *)
Theorem select_list_per_destination_field (target staging : string)
    (tgt_table stg_table : Table) :
  NoDup (tgt_cols_of tgt_table) →
  ∃ (items : list select_item) (exprs : list string),
    select_items tgt_table stg_table = Ok items
    ∧ select_exprs tgt_table stg_table = Ok exprs
    ∧ List.length exprs = List.length (schema tgt_table)
    ∧ List.length (tgt_cols_of tgt_table) = List.length exprs
    ∧ (∀ (i : nat) (f : SchemaField), schema tgt_table !! i = Some f →
         tgt_cols_of tgt_table !! i = Some (name f)
         ∧ exprs !! i =
             Some (if decide (name f ∈ name <$> schema stg_table)
                   then _safe_cast_expr "stg" (name f) (field_type f)
                   else "CAST(NULL AS " +:+ cast_target (field_type f)
                          +:+ ") AS " +:+ name f))
    ∧ sql_text (InsertSelect target (tgt_cols_of tgt_table) items staging) =
        insert_sql target (name <$> schema tgt_table) exprs staging.
Proof.
  intros Hnd.
  eexists _, _. split; [apply select_items_spec |].
  split; [unfold select_exprs; rewrite select_items_spec; reflexivity |].
  unfold tgt_cols_of. repeat rewrite length_fmap.
  split; [done |]. split; [done |]. split; [| done].
  intros i f Hf. rewrite !list_lookup_fmap, Hf. simpl. split; [done |].
  f_equal.
  rewrite (tgt_types_unique tgt_table f Hnd) by (eapply list_elem_of_lookup_2; eauto).
  simpl. unfold item_for, stg_cols_set_of.
  destruct (decide (name f ∈ name <$> schema stg_table)) as [Hin | Hout];
    case_decide as Hset; try reflexivity;
    rewrite elem_of_list_to_set in Hset; contradiction.
Qed.

Lemma select_list_per_destination_field_witness :
  select_exprs (mkTable "proj.ds.orders" Sample.orders_schema)
    (mkTable Sample.orders_staging
       [SchemaField2 "total" "STRING"; SchemaField2 "extra" "STRING";
        SchemaField2 "ID" "INT64"])
  = Ok [ "CAST(NULL AS INT64) AS id";
         "SAFE_CAST(stg.total AS NUMERIC) AS total";
         "CAST(NULL AS TIMESTAMP) AS placed_at";
         "CAST(NULL AS DATE) AS Ingestion_date" ].
Proof.
  destruct (select_list_per_destination_field "proj.ds.orders"
              Sample.orders_staging
              (mkTable "proj.ds.orders" Sample.orders_schema)
              (mkTable Sample.orders_staging
                 [SchemaField2 "total" "STRING"; SchemaField2 "extra" "STRING";
                  SchemaField2 "ID" "INT64"]))
    as (items & exprs & _ & Hexprs & _).
  - apply (bool_decide_unpack _). vm_compute. exact I.
  - rewrite Hexprs. vm_compute in Hexprs. congruence.
Defined.

(** ** The staging merge *)

Section Preserving.

Context {W : Type} {RT : Runtime W}.

Lemma preserves_ret {A} (I : W → Prop) (a : A) : preserves I (mret a : M W A).
Proof. by intros w Hw. Qed.

Lemma preserves_lift {A} (I : W → Prop) (r : result A) :
  preserves I (lift_result r : M W A).
Proof. by intros w Hw. Qed.

Lemma preserves_info (I : W → Prop) msg :
  preserves I (logger_info msg : M W unit).
Proof. by intros w Hw. Qed.

Lemma preserves_call {A} (I : W → Prop) ev (f : W → result A * W) :
  (∀ w, I w → I (f w).2) → preserves I (call ev f).
Proof. intros Hf w Hw. rewrite run_call. simpl. by apply Hf. Qed.

Lemma preserves_call_total {A} (I : W → Prop) ev (f : W → A * W) :
  (∀ w, I w → I (f w).2) → preserves I (call_total ev f).
Proof.
  intros Hf w Hw. unfold call_total. specialize (Hf w Hw).
  by destruct (f w).
Qed.

Lemma preserves_bind {A B} (I : W → Prop) (m : M W A) (k : A → M W B) :
  preserves I m → (∀ a, preserves I (k a)) → preserves I (m ≫= k).
Proof.
  intros Hm Hk w Hw. rewrite run_bind. specialize (Hm w Hw).
  destruct (m w) as [[[a | e] w1] t1]; simpl in *; [| done].
  specialize (Hk a w1 Hm). by destruct (k a w1) as [[r w2] t2].
Qed.

Lemma preserves_try_finally {A} (I : W → Prop) (body : M W A)
    (fin : M W unit) :
  preserves I body → preserves I fin → preserves I (try_finally body fin).
Proof.
  intros Hb Hf w Hw. unfold try_finally. specialize (Hb w Hw).
  destruct (body w) as [[r w1] t1]; simpl in *.
  specialize (Hf w1 Hb). by destruct (fin w1) as [[[[] | e] w2] t2].
Qed.

Lemma preserves_with_open {A} (I : W → Prop) path (body : M W A) :
  (∀ w, I w → I (rt_open path w).2) → preserves I body →
  preserves I (with_open path body).
Proof.
  intros Ho Hb. unfold with_open.
  apply preserves_bind; [by apply preserves_call |]. intros _.
  apply preserves_try_finally; [done |]. by intros w Hw.
Qed.

Lemma string_app_length (s t : string) :
  String.length (s +:+ t) = String.length s + String.length t.
Proof. induction s as [| c s IH]; simpl; [done | by rewrite IH]. Qed.

Lemma staging_is_not_target (target : string) (now : datetime) :
  staging_table_id_of target now ≠ target.
Proof.
  unfold staging_table_id_of. intros Heq.
  apply (f_equal String.length) in Heq.
  rewrite !string_app_length in Heq. simpl in Heq. lia.
Qed.

(** Every call of the merge leaves the schema of the target alone, and
    the one statement it sends is a well-formed merge. *)
Lemma append_emits_merge_events (file_path target : string) :
  emits_only (merge_event target)
    (_append_via_staging_with_casts file_path target).
Proof.
  unfold _append_via_staging_with_casts.
  apply emits_only_bind; [by apply emits_only_call_total |].
  intros now. pose proof (staging_is_not_target target now) as Hne.
  assert (Hb : bool_decide (staging_table_id_of target now = target) = false)
    by (by apply bool_decide_eq_false).
  apply emits_only_bind; [by apply emits_only_info |]. intros _.
  apply emits_only_bind.
  { apply emits_only_with_open; [done | done |].
    apply emits_only_bind; [apply emits_only_call; by split |]. intros job.
    by apply emits_only_call. }
  intros _.
  apply emits_only_bind; [by apply emits_only_get_table |]. intros tgt_table.
  apply emits_only_bind; [by apply emits_only_get_table |]. intros stg_table.
  apply emits_only_bind_lift. intros items Hitems.
  apply select_items_cols in Hitems as [Hcols Hsrc].
  apply emits_only_bind; [by apply emits_only_info |]. intros _.
  apply emits_only_bind.
  { apply emits_only_call. split; [done |]. simpl.
    split; [done |]. split; [done |]. split; [done |].
    eapply Forall_impl; [exact Hsrc |]. intros it Hit c Hc.
    by apply Hit. }
  intros _.
  apply emits_only_bind; [apply emits_only_call; by split |]. intros _.
  by apply emits_only_info.
Qed.

(** What a well-formed merge reads and writes. *)
Lemma merge_statement_reads (target : string) (q : statement) (s : string) :
  merge_statement target q → s ∈ columns_read q → s ∈ columns_written q.
Proof.
  destruct q as [tgt cols items staging | ? ?]; simpl; [| done].
  intros (_ & _ & <- & Hsrc) Hs.
  apply list_elem_of_omap in Hs as (it & Hit & Hc).
  rewrite Forall_forall in Hsrc. rewrite <- (Hsrc it Hit s Hc).
  by apply list_elem_of_fmap_2.
Qed.

End Preserving.

Section WarehouseSchema.
Import Warehouse.

Lemma exec_sql_keeps_schema (text : string) (w : warehouse) (t : string) :
  schema_of (exec_sql text w).2 t = schema_of w t.
Proof.
  unfold schema_of, exec_sql.
  destruct (Sql.parse text) as [[u | i] |]; [| | done].
  - unfold exec_update.
    destruct (wh_tables w !! Sql.u_table u) as [tb |] eqn:Ht; [| done].
    case_match; [| done]. case_match; [| done]. simpl.
    destruct (decide (Sql.u_table u = t)) as [<- | Hne].
    + by rewrite lookup_insert_eq, Ht.
    + by rewrite lookup_insert_ne.
  - unfold exec_insert.
    destruct (wh_tables w !! Sql.i_table i) as [tgt |] eqn:Ht;
      destruct (wh_tables w !! Sql.i_source i) as [src |] eqn:Hs; try done.
    case_match; [| done]. case_match; [| done]. case_match; [| done]. simpl.
    destruct (decide (Sql.i_table i = t)) as [<- | Hne].
    + by rewrite lookup_insert_eq, Ht.
    + by rewrite lookup_insert_ne.
Qed.

Lemma wh_query_keeps_schema (q : statement) (w : warehouse) (t : string) :
  schema_of (wh_query q w).2 t = schema_of w t.
Proof. apply exec_sql_keeps_schema. Qed.

Lemma wh_open_keeps (path : string) (w : warehouse) : (wh_open path w).2 = w.
Proof. unfold wh_open. by case_match. Qed.

Lemma wh_job_result_keeps (job : LoadJob) (w : warehouse) :
  (wh_job_result job w).2 = w.
Proof. unfold wh_job_result. by case_match. Qed.

Lemma wh_get_table_keeps (table_id : string) (w : warehouse) :
  (wh_get_table table_id w).2 = w.
Proof. unfold wh_get_table. by case_match. Qed.

Lemma wh_load_keeps_schema (file_path table_id : string)
    (cfg : LoadJobConfig) (w : warehouse) (t : string) :
  table_id ≠ t →
  schema_of (wh_load_table_from_file file_path table_id cfg w).2 t =
    schema_of w t.
Proof.
  intros Hne. unfold schema_of, wh_load_table_from_file.
  destruct (wh_files w !! file_path); [| done].
  destruct (sv_load (wh_service w) cfg s); [| done].
  destruct (written _ _ _); [| done]. simpl. by rewrite lookup_insert_ne.
Qed.

Lemma wh_delete_keeps_schema (table_id : string) (nf : bool)
    (w : warehouse) (t : string) :
  table_id ≠ t →
  schema_of (wh_delete_table table_id nf w).2 t = schema_of w t.
Proof.
  intros Hne. unfold schema_of, wh_delete_table.
  destruct (wh_tables w !! table_id); simpl.
  - by rewrite lookup_delete_ne.
  - by destruct nf.
Qed.

Lemma append_preserves_schema (file_path target : string)
    (sch : option (list SchemaField)) :
  preserves (fun w => schema_of w target = sch)
    (_append_via_staging_with_casts file_path target).
Proof.
  unfold _append_via_staging_with_casts.
  apply preserves_bind; [by apply preserves_call_total |].
  intros now. pose proof (staging_is_not_target target now) as Hne.
  apply preserves_bind; [apply preserves_info |]. intros _.
  apply preserves_bind.
  { apply preserves_with_open.
    - intros w Hw. change (rt_open file_path w) with (wh_open file_path w).
      by rewrite wh_open_keeps.
    - apply preserves_bind.
      + apply preserves_call. intros w Hw. rewrite <- Hw.
        by apply wh_load_keeps_schema.
      + intros job. apply preserves_call. intros w Hw.
        change (rt_job_result job w) with (wh_job_result job w).
        by rewrite wh_job_result_keeps. }
  intros _.
  apply preserves_bind.
  { apply preserves_call. intros w Hw.
    change (rt_get_table target w) with (wh_get_table target w).
    by rewrite wh_get_table_keeps. }
  intros tgt_table.
  apply preserves_bind.
  { apply preserves_call. intros w Hw.
    change (rt_get_table ?t w) with (wh_get_table t w).
    by rewrite wh_get_table_keeps. }
  intros stg_table.
  apply preserves_bind; [apply preserves_lift |]. intros items.
  apply preserves_bind; [apply preserves_info |]. intros _.
  apply preserves_bind.
  { apply preserves_call. intros w Hw. rewrite <- Hw.
    apply wh_query_keeps_schema. }
  intros _.
  apply preserves_bind; [| intros _; apply preserves_info].
  apply preserves_call. intros w Hw. rewrite <- Hw.
  by apply wh_delete_keeps_schema.
Qed.

Lemma triple_bind {W A B} (I : W → Prop) P (Q : A → Prop) (Q' : B → Prop)
    (m : M W A) (k : A → M W B) :
  triple I P Q m → (∀ a, Q a → triple I P Q' (k a)) →
  triple I P Q' (m ≫= k).
Proof.
  intros Hm Hk w Hw. rewrite run_bind.
  destruct (Hm w Hw) as (HI & HP & HQ).
  destruct (m w) as [[[a | e] w1] t1]; simpl in *.
  - destruct (Hk a (HQ a eq_refl) w1 HI) as (HI' & HP' & HQ').
    destruct (k a w1) as [[r w2] t2]; simpl in *.
    split; [done |]. split; [by apply Forall_app | done].
  - split; [done |]. split; [done |]. intros a [=].
Qed.

Lemma triple_call {W A} (I : W → Prop) (P : event → Prop) (Q : A → Prop)
    ev (f : W → result A * W) :
  P ev → (∀ w, I w → I (f w).2 ∧ ∀ a, (f w).1 = Ok a → Q a) →
  triple I P Q (call ev f).
Proof.
  intros Hev Hf w Hw. rewrite run_call. simpl.
  destruct (Hf w Hw) as [HI HQ]. split; [done |]. split; [| done].
  by constructor.
Qed.

Lemma triple_pure {W A} (I : W → Prop) (P : event → Prop) (m : M W A) :
  preserves I m → emits_only P m → triple I P (fun _ => True) m.
Proof. intros Hp He w Hw. split; [by apply Hp |]. split; [apply He | done]. Qed.

(** Against the warehouse, the column list of the INSERT is the list
    of names of the schema the destination had before the merge. *)
Lemma append_writes_schema (file_path target : string)
    (o : option (list SchemaField)) :
  triple (fun w => schema_of w target = o) (writes_schema o)
    (fun _ : unit => True)
    (_append_via_staging_with_casts file_path target).
Proof.
  unfold _append_via_staging_with_casts.
  eapply triple_bind.
  { apply triple_pure; [by apply preserves_call_total |].
    by apply emits_only_call_total. }
  intros now _. pose proof (staging_is_not_target target now) as Hne.
  eapply triple_bind.
  { apply triple_pure; [apply preserves_info | by apply emits_only_info]. }
  intros _ _. eapply triple_bind.
  { apply triple_pure.
    - apply preserves_with_open.
      + intros w Hw. change (rt_open file_path w) with (wh_open file_path w).
        by rewrite wh_open_keeps.
      + apply preserves_bind.
        * apply preserves_call. intros w Hw. rewrite <- Hw.
          by apply wh_load_keeps_schema.
        * intros job. apply preserves_call. intros w Hw.
          change (rt_job_result job w) with (wh_job_result job w).
          by rewrite wh_job_result_keeps.
    - apply emits_only_with_open; [done | done |].
      apply emits_only_bind; [by apply emits_only_call |]. intros job.
      by apply emits_only_call. }
  intros _ _.
  eapply (triple_bind _ _ (fun t : Table => o = Some (schema t))).
  { apply triple_call; [done |]. intros w Hw.
    change (rt_get_table target w) with (wh_get_table target w).
    rewrite wh_get_table_keeps. split; [done |].
    unfold wh_get_table, schema_of in *.
    destruct (wh_tables w !! target) as [t |]; simpl; [| done].
    intros a [= <-]. by rewrite <- Hw. }
  intros tgt_table Htgt. eapply triple_bind.
  { apply triple_pure; [| by apply emits_only_get_table].
    apply preserves_call. intros w Hw.
    change (rt_get_table ?t w) with (wh_get_table t w).
    by rewrite wh_get_table_keeps. }
  intros stg_table _. eapply triple_bind.
  { apply triple_pure; [apply preserves_lift | apply emits_only_lift]. }
  intros items _. eapply triple_bind.
  { apply triple_pure; [apply preserves_info | by apply emits_only_info]. }
  intros _ _. eapply triple_bind.
  { apply triple_pure.
    - apply preserves_call. intros w Hw. rewrite <- Hw.
      apply wh_query_keeps_schema.
    - apply emits_only_call. simpl. by exists (schema tgt_table). }
  intros _ _. eapply triple_bind.
  { apply triple_pure; [| by apply emits_only_call].
    apply preserves_call. intros w Hw. rewrite <- Hw.
    by apply wh_delete_keeps_schema. }
  intros _ _.
  apply triple_pure; [apply preserves_info | by apply emits_only_info].
Qed.

End WarehouseSchema.

(** C3. The merge never alters the schema of the destination.  Against
    any runtime, none of its calls is a schema update, a load or a drop
    of the destination, and the statement it sends is an INSERT into
    the destination whose entries read only columns of its column list,
    so a staging column that is not a destination column is neither
    written nor read.  Against the warehouse model, the schema of the
    destination after the merge is the schema before it, on success and
    on failure. *)
Theorem merge_keeps_destination_schema :
  (∀ (W : Type) (RT : Runtime W) (file_path target : string) (w : W),
     Forall (fun e => alters_schema target e = false)
       (_append_via_staging_with_casts file_path target w).2
     ∧ ∀ q : statement,
         EQuery q ∈ (_append_via_staging_with_casts file_path target w).2 →
         merge_statement target q
         ∧ ∀ s : string,
             s ∉ columns_written q → s ∉ columns_read q)
  ∧ (∀ (file_path target : string) (w : Warehouse.warehouse),
       Warehouse.schema_of
         (_append_via_staging_with_casts file_path target w).1.2 target =
       Warehouse.schema_of w target
       ∧ ∀ q : statement,
           EQuery q ∈ (_append_via_staging_with_casts file_path target w).2 →
           ∃ sch : list SchemaField,
             Warehouse.schema_of w target = Some sch
             ∧ columns_written q = name <$> sch).
Proof.
  split.
  - intros W RT file_path target w.
    pose proof (append_emits_merge_events file_path target w) as Hall.
    split.
    + eapply Forall_impl; [exact Hall |]. by intros e [He _].
    + intros q Hq. rewrite Forall_forall in Hall.
      destruct (Hall _ Hq) as [_ Hm]. split; [exact Hm |].
      intros s Hs Hr. apply Hs. by eapply merge_statement_reads.
  - intros file_path target w.
    destruct (append_writes_schema file_path target
                (Warehouse.schema_of w target) w eq_refl) as (HI & HP & _).
    split; [exact HI |]. intros q Hq.
    rewrite Forall_forall in HP. exact (HP _ Hq).
Qed.

Lemma merge_keeps_destination_schema_witness :
  Warehouse.schema_of
    (_append_via_staging_with_casts "/dl/leads.csv" "proj.ds.leads"
       Sample.world).1.2 "proj.ds.leads" = Some Sample.plain_schema
  ∧ "phone" ∉ columns_read
      (InsertSelect "proj.ds.leads" ["id"; "ingestion_date"]
         [FromStaging "id" "INT64"; TypedNull "ingestion_date" "DATE"]
         "proj.ds.leads__stg_20261103040506").
Proof.
  split.
  - rewrite (proj1 (proj2 merge_keeps_destination_schema
                      "/dl/leads.csv" "proj.ds.leads" Sample.world)).
    vm_compute. reflexivity.
  - apply (proj2 (proj1 merge_keeps_destination_schema _ _
                    "/dl/leads.csv" "proj.ds.leads" Sample.world)).
    + apply list_elem_of_lookup. exists 9. vm_compute. reflexivity.
    + apply (bool_decide_unpack _). vm_compute. exact I.
Defined.

(** C4. The drop of the staging table is not attempted when the INSERT
    fails.  [Orders.CSV] lacks the [id] column that [proj.ds.orders]
    requires, so the INSERT is refused: the merge raises, its last call
    is the INSERT, no drop is in the trace and the staging table is
    still in the warehouse.  (When the INSERT succeeds, as for
    [leads.csv], the drop follows it, with [not_found_ok] set.) *)
Theorem staging_left_behind_when_insert_fails :
  let failed :=
    _append_via_staging_with_casts "/dl/Orders.CSV" "proj.ds.orders"
      Sample.world in
  let passed :=
    _append_via_staging_with_casts "/dl/leads.csv" "proj.ds.leads"
      Sample.world in
  failed.1.1 = Raise (BadRequest "Required field cannot be null")
  ∧ (∃ q, last failed.2 = Some (EQuery q))
  ∧ omap dropped_table failed.2 = []
  ∧ is_Some (Warehouse.wh_tables failed.1.2 !! Sample.orders_staging)
  ∧ passed.1.1 = Ok tt
  ∧ EDeleteTable "proj.ds.leads__stg_20261103040506" true ∈ passed.2
  ∧ Warehouse.wh_tables passed.1.2 !! "proj.ds.leads__stg_20261103040506"
      = None.
Proof.
  split; [| split; [| split; [| split; [| split; [| split]]]]].
  - vm_compute. reflexivity.
  - eexists. vm_compute. reflexivity.
  - vm_compute. reflexivity.
  - vm_compute. eauto.
  - vm_compute. reflexivity.
  - apply list_elem_of_lookup. exists 10. vm_compute. reflexivity.
  - vm_compute. reflexivity.
Qed.

(** ** The batch orchestrator *)

Ltac emits :=
  repeat match goal with
    | |- emits_only _ (mret _) => apply emits_only_ret
    | |- emits_only _ (lift_result _ ≫= _) =>
        apply emits_only_bind_lift; intros ? _
    | |- emits_only _ (_ ≫= _) => apply emits_only_bind; [| intros ?]
    | |- emits_only _ (call _ _) => apply emits_only_call
    | |- emits_only _ (call_total _ _) => apply emits_only_call_total
    | |- emits_only _ (logger_info _) => apply emits_only_info
    | |- emits_only _ (logger_error _) => apply emits_only_error
    | |- emits_only _ (get_table _) => apply emits_only_get_table
    | |- emits_only _ (table_exists _) => apply emits_only_table_exists
    | |- emits_only _ (try_except _ _) =>
        apply emits_only_try_except; [| intros ?]
    | |- emits_only _ (with_open _ _) => apply emits_only_with_open
    | |- emits_only _ (if ?b then _ else _) => destruct b
    end.

Section Batch.

Context {W : Type} {RT : Runtime W}.

Lemma omap_all_none {A B} (f : A → option B) (l : list A) :
  Forall (fun x => f x = None) l → omap f l = [].
Proof. induction 1 as [| x l Hx _ IH]; simpl; [done |]. by rewrite Hx. Qed.

Lemma omap_cons_match {A B} (f : A → option B) (x : A) (l : list A) :
  omap f (x :: l) =
    match f x with Some y => y :: omap f l | None => omap f l end.
Proof. reflexivity. Qed.

Lemma prefix_app (s x : string) : String.prefix s (s +:+ x) = true.
Proof.
  induction s as [| c s IH]; simpl; [by destruct x |].
  by destruct (Ascii.ascii_dec c c).
Qed.

Lemma upload_started_banner (x : string) :
  upload_started (ELog INFO (upload_banner +:+ x)) = Some x.
Proof. unfold upload_started. by rewrite prefix_app. Qed.

Lemma inner_events_omap (t : list event) :
  Forall inner_event t →
  omap remove_path t = [] ∧ omap upload_started t = [].
Proof.
  intros H. split; apply omap_all_none;
    (eapply Forall_impl; [exact H |]); by intros e [? ?].
Qed.

Lemma set_ingestion_date_inner table_id d :
  emits_only inner_event (_set_ingestion_date_if_exists table_id d).
Proof. unfold _set_ingestion_date_if_exists. emits; by split. Qed.

Lemma ensure_column_inner table_id :
  emits_only inner_event (_ensure_ingestion_date_column table_id).
Proof. unfold _ensure_ingestion_date_column. emits; by split. Qed.

Lemma create_table_inner file_path table_id :
  emits_only inner_event (_create_table_and_load file_path table_id).
Proof.
  unfold _create_table_and_load. emits;
    try apply ensure_column_inner; by split.
Qed.

Lemma append_inner file_path table_id :
  emits_only inner_event (_append_via_staging_with_casts file_path table_id).
Proof. unfold _append_via_staging_with_casts. emits; by split. Qed.

Lemma upload_csv_trace (file_path table_id : string) (w : W) :
  ∃ t : list event,
    (upload_csv file_path table_id w).2 =
      ELog INFO (upload_banner +:+ file_path +:+ " → " +:+ table_id) :: t
    ∧ Forall inner_event t.
Proof.
  unfold upload_csv. rewrite run_bind. simpl.
  match goal with
  | |- context [(?m ≫= ?k) w] =>
      assert (Hrest : emits_only inner_event (m ≫= k))
  end.
  { emits; try apply append_inner; try apply create_table_inner;
      try apply set_ingestion_date_inner; by split. }
  specialize (Hrest w).
  match type of Hrest with
  | Forall _ (?run).2 => destruct run as [[r w2] t2]
  end.
  exists t2. by split.
Qed.

(** The guarded upload returns normally; its trace is the trace of
    the upload followed by log lines. *)
Lemma upload_block_run (file_path table_id file_name : string) (w : W) :
  ∃ (w1 : W) (t : list event),
    try_except
      (upload_csv file_path table_id ;;
       logger_info ("✅ Finished processing: " +:+ file_name))
      (fun e =>
         logger_error ("❌ Failed to process " +:+ file_name +:+ ": "
                         +:+ str_exn e) ;;
         logger_error (format_exc e)) w
    = (Ok tt, w1,
       ELog INFO (upload_banner +:+ file_path +:+ " → " +:+ table_id) :: t)
    ∧ Forall inner_event t.
Proof.
  unfold try_except. rewrite run_bind.
  destruct (upload_csv_trace file_path table_id w) as (t & Ht & Hin).
  destruct (upload_csv file_path table_id w) as [[[[] | e] w1] t1];
    simpl in Ht; subst t1; simpl;
    (eexists w1, _; split; [reflexivity |]);
    (apply Forall_app; split; [done |]); repeat constructor.
Qed.

(** The guarded removal returns normally; its trace is the call of
    [os.remove] and one log line. *)
Lemma remove_block_run (file_path file_name : string) (w : W) :
  ∃ (w1 : W) (line : event),
    try_except
      (call (ERemove file_path) (rt_remove file_path) ;;
       logger_info ("🗑️ Deleted file: " +:+ file_name))
      (fun e =>
         logger_error ("❌ Could not delete " +:+ file_name +:+ ": "
                         +:+ str_exn e)) w
    = (Ok tt, w1, [ERemove file_path; line])
    ∧ inner_event line.
Proof.
  unfold try_except. rewrite run_bind, run_call.
  destruct (rt_remove file_path w) as [[[] | e] w1]; simpl;
    (eexists w1, _; split; [reflexivity |]); by split.
Qed.

(** The line that closes the removal says what became of the file. *)
Lemma remove_block_line (file_path file_name : string) (w : W) :
  ∃ (w1 : W) (line : event),
    try_except
      (call (ERemove file_path) (rt_remove file_path) ;;
       logger_info ("🗑️ Deleted file: " +:+ file_name))
      (fun e =>
         logger_error ("❌ Could not delete " +:+ file_name +:+ ": "
                         +:+ str_exn e)) w
    = (Ok tt, w1, [ERemove file_path; line])
    ∧ (line = ELog INFO ("🗑️ Deleted file: " +:+ file_name)
       ∨ ∃ e : exn,
           line = ELog ERROR ("❌ Could not delete " +:+ file_name +:+ ": "
                                +:+ str_exn e)).
Proof.
  unfold try_except. rewrite run_bind, run_call.
  destruct (rt_remove file_path w) as [[[] | e] w1]; simpl;
    (eexists w1, _; split; [reflexivity |]); [by left | right; by exists e].
Qed.

(** One round of the loop: it returns normally whatever the upload and
    the removal do; for a considered file the trace shows one upload
    and, after it, one removal. *)
Lemma process_file_run (self : BigQueryUploader) (file_name : string)
    (w : W) :
  (process_file self file_name w).1.1 = Ok tt
  ∧ omap upload_started (process_file self file_name w).2 =
      (if considered file_name then [upload_line self file_name] else [])
  ∧ omap remove_path (process_file self file_name w).2 =
      (if considered file_name then [file_path_of self file_name] else []).
Proof.
  unfold process_file. destruct (considered file_name); simpl; [| done].
  unfold try_finally.
  destruct (upload_block_run (file_path_of self file_name)
              (table_id_of self file_name) file_name w)
    as (w1 & t & -> & Hin).
  destruct (remove_block_run (file_path_of self file_name) file_name w1)
    as (w2 & line & -> & [Hl1 Hl2]).
  apply inner_events_omap in Hin as [Hrm Hup].
  cbn [fst snd]. split; [done |].
  rewrite !omap_app, !omap_cons_match, Hrm, Hup, Hl1, Hl2.
  rewrite upload_started_banner. done.
Qed.

Lemma for_each_process_run (self : BigQueryUploader)
    (file_names : list string) (w : W) :
  (for_each file_names (process_file self) w).1.1 = Ok tt
  ∧ omap upload_started (for_each file_names (process_file self) w).2 =
      upload_line self <$> List.filter considered file_names
  ∧ omap remove_path (for_each file_names (process_file self) w).2 =
      file_path_of self <$> List.filter considered file_names.
Proof.
  revert w. induction file_names as [| n ns IH]; intros w; [done |].
  simpl for_each. unfold bind.
  destruct (process_file_run self n w) as (Hr & Hup & Hrm).
  destruct (process_file self n w) as [[r w1] t1]. simpl in *. subst r.
  destruct (IH w1) as (Hr' & Hup' & Hrm').
  destruct (for_each ns (process_file self) w1) as [[r2 w2] t2]. simpl in *.
  rewrite !omap_app, Hup, Hrm, Hup', Hrm'.
  destruct (considered n); done.
Qed.

End Batch.

(** C6. Once the directory is listed, the batch returns normally
    whatever happens inside the files: every considered file, in
    listing order, has its upload started and its local copy handed to
    [os.remove], and no exception of an upload or of a removal leaves
    the loop. *)
Theorem batch_isolates_file_failures {W : Type} {RT : Runtime W}
    (self : BigQueryUploader) (file_names : list string) (w w1 : W) :
  rt_listdir (download_path self) w = (Ok file_names, w1) →
  (upload_all_csvs self w).1.1 = Ok tt
  ∧ omap upload_started (upload_all_csvs self w).2 =
      upload_line self <$> List.filter considered file_names
  ∧ omap remove_path (upload_all_csvs self w).2 =
      file_path_of self <$> List.filter considered file_names.
Proof.
  intros Hls.
  assert (Hrun : upload_all_csvs self w =
                 match for_each file_names (process_file self) w1 with
                 | (r, w2, t2) =>
                     (r, w2,
                      [ELog INFO ("📂 Scanning folder: " +:+ download_path self)]
                        ++ [EListdir (download_path self)] ++ t2)
                 end).
  { unfold upload_all_csvs. rewrite run_bind.
    unfold logger_info. cbv beta iota. rewrite run_bind, run_call, Hls.
    cbn [fst snd].
    by destruct (for_each file_names (process_file self) w1) as [[r w2] t2]. }
  rewrite Hrun.
  destruct (for_each_process_run self file_names w1) as (Hr & Hup & Hrm).
  destruct (for_each file_names (process_file self) w1) as [[r w2] t2].
  cbn [fst snd] in *. rewrite !omap_app, Hup, Hrm. by subst r.
Qed.

Lemma batch_isolates_file_failures_witness :
  (upload_all_csvs Sample.uploader Sample.world).1.1 = Ok tt
  ∧ omap remove_path (upload_all_csvs Sample.uploader Sample.world).2 =
      ["/dl/leads.csv"; "/dl/Orders.CSV"; "/dl/new.csv"]
  ∧ ELog ERROR "❌ Failed to process Orders.CSV: Required field cannot be null"
      ∈ (upload_all_csvs Sample.uploader Sample.world).2.
Proof.
  destruct (batch_isolates_file_failures Sample.uploader
              ["leads.csv"; "Orders.CSV"; "notes.txt"; "new.csv"]
              Sample.world Sample.world) as (Hr & _ & Hrm).
  - vm_compute. reflexivity.
  - split; [exact Hr |]. split; [rewrite Hrm; vm_compute; reflexivity |].
    apply list_elem_of_lookup. exists 34. vm_compute. reflexivity.
Defined.

(** ** File names and table identities *)

Section Names.

Context {W : Type} {RT : Runtime W}.

Local Arguments String.append !_ _ / : simpl nomatch.


Lemma lower_app (a b : string) :
  Py.lower (a +:+ b) = Py.lower a +:+ Py.lower b.
Proof. induction a as [| c a IH]; simpl; [done | by rewrite IH]. Qed.



Lemma take_drop (i : nat) (s : string) : Py.take i s +:+ Py.drop i s = s.
Proof.
  revert s. induction i as [| i IH]; intros [| c s]; simpl; try done.
  by rewrite IH.
Qed.


Lemma drop_length (i : nat) (s : string) :
  String.length (Py.drop i s) = String.length s - i.
Proof.
  revert s. induction i as [| i IH]; intros [| c s]; simpl; try done.
Qed.



Lemma isascii_app (a b : string) :
  Py.isascii (a +:+ b) = Py.isascii a && Py.isascii b.
Proof.
  induction a as [| c a IH]; simpl; [done |]. by rewrite IH, andb_assoc.
Qed.








Lemma lower_char_slash (c : ascii) :
  Ascii.eqb (Py.lower_char c) "/" = Ascii.eqb c "/".
Proof. destruct c as [[] [] [] [] [] [] [] []]; reflexivity. Qed.




Lemma has_char_lower_slash (s : string) :
  has_char "/" (Py.lower s) = has_char "/" s.
Proof.
  induction s as [| d s IH]; simpl; [done |].
  by rewrite lower_char_slash, IH.
Qed.











End Names.




(** * Further properties of the loader *)

(** ** The cast table *)

(** X1. The table maps each of the eleven BigQuery type names to
    itself; whatever the tag, the resolved cast target is one of the
    eleven, so resolving a resolved target gives it back. *)
Theorem cast_target_canonical (target_type : string) :
  Forall (fun n => cast_target n = n) bigquery_types
  ∧ cast_target target_type ∈ bigquery_types
  ∧ cast_target (cast_target target_type) = cast_target target_type.
Proof.
  assert (Hfix : Forall (fun n => cast_target n = n) bigquery_types)
    by (repeat constructor).
  split; [exact Hfix |].
  assert (Hin : cast_target target_type ∈ bigquery_types).
  { pose proof (cast_target_range target_type) as H.
    set (c := cast_target target_type) in *. clearbody c.
    unfold _CAST_TARGETS_items in H. simpl in H.
    repeat (apply elem_of_cons in H as [-> | H]);
      [.. | by apply elem_of_nil in H];
      apply (bool_decide_unpack _); vm_compute; exact I. }
  split; [exact Hin |].
  rewrite Forall_forall in Hfix. by apply Hfix.
Qed.

(** ** The select list without the uniqueness assumption *)

Lemma dict_fold_last {V} (items : list (string * V)) (m : gmap string V)
    (k : string) :
  foldl (fun m kv => <[kv.1 := kv.2]> m) m items !! k =
    match last (filter (fun kv => kv.1 = k) items) with
    | Some kv => Some kv.2
    | None => m !! k
    end.
Proof.
  revert m. induction items as [| [k' v'] items IH]; intros m; [done |].
  simpl foldl. rewrite IH. rewrite filter_cons. simpl.
  case_decide as Hk.
  - subst k'. rewrite last_cons.
    destruct (last (filter _ items)); [done |]. simpl.
    apply lookup_insert_eq.
  - destruct (last (filter _ items)); [done |]. by apply lookup_insert_ne.
Qed.

Lemma tgt_types_last (tgt_table : Table) (col : string) :
  tgt_types_of tgt_table !! col =
    field_type <$> last (filter (fun f => name f = col) (schema tgt_table)).
Proof.
  unfold tgt_types_of, dict_of_items. rewrite dict_fold_last, lookup_empty.
  induction (schema tgt_table) as [| f fs IH]; [done |].
  rewrite fmap_cons, !filter_cons. simpl.
  case_decide; [| exact IH].
  rewrite !last_cons.
  destruct (last (filter _ (_ <$> fs))), (last (filter _ fs));
    simpl in *; congruence.
Qed.

(** X2. The type lookup of the select-list loop never fails: for any
    two schemas the loop returns one expression per destination field.
    When several destination fields share a name, every one of them is
    cast to the type of the last field of that name. *)
Theorem select_exprs_never_key_error (tgt_table stg_table : Table) :
  ∃ exprs : list string,
    select_exprs tgt_table stg_table = Ok exprs
    ∧ List.length exprs = List.length (schema tgt_table)
    ∧ ∀ (i : nat) (f : SchemaField), schema tgt_table !! i = Some f →
        ∃ g : SchemaField,
          last (filter (fun g => name g = name f) (schema tgt_table)) = Some g
          ∧ exprs !! i =
              Some (render_item
                      (item_for (stg_cols_set_of stg_table) (name f)
                         (field_type g))).
Proof.
  eexists. split;
    [unfold select_exprs; rewrite select_items_spec; reflexivity |].
  unfold tgt_cols_of. split; [by rewrite !length_fmap |].
  intros i f Hf.
  destruct (last (filter (fun g => name g = name f) (schema tgt_table)))
    as [g |] eqn:Hlast.
  - exists g. split; [done |].
    rewrite !list_lookup_fmap, Hf. simpl.
    by rewrite tgt_types_last, Hlast.
  - exfalso. apply last_None in Hlast.
    assert (Hin : f ∈ filter (fun g => name g = name f) (schema tgt_table)).
    { apply list_elem_of_filter. split; [done |].
      by eapply list_elem_of_lookup_2. }
    rewrite Hlast in Hin. by apply elem_of_nil in Hin.
Qed.

(** ** The directory listing *)

(** X3. An exception of [os.listdir] is not caught by the orchestrator:
    the batch raises it, having logged the scan and made no other
    call. *)
Theorem listdir_failure_aborts_batch {W : Type} {RT : Runtime W}
    (self : BigQueryUploader) (w w1 : W) (e : exn) :
  rt_listdir (download_path self) w = (Raise e, w1) →
  upload_all_csvs self w =
    (Raise e, w1,
     [ELog INFO ("📂 Scanning folder: " +:+ download_path self);
      EListdir (download_path self)]).
Proof.
  intros Hls. unfold upload_all_csvs. rewrite run_bind.
  unfold logger_info. cbv beta iota. rewrite run_bind, run_call, Hls.
  reflexivity.
Qed.

Lemma listdir_failure_aborts_batch_witness :
  (upload_all_csvs (mkUploader "proj" "ds" "/missing") Sample.world).1.1 =
    Raise (FileNotFoundError "No such file or directory: /missing").
Proof.
  rewrite (listdir_failure_aborts_batch (mkUploader "proj" "ds" "/missing")
             Sample.world Sample.world
             (FileNotFoundError "No such file or directory: /missing")).
  - reflexivity.
  - vm_compute. reflexivity.
Defined.

(** ** Runs against the warehouse model *)

Section WarehouseRuns.
Import Warehouse.

Lemma run_get_table_some (w : warehouse) (table_id : string) (t : table_data) :
  wh_tables w !! table_id = Some t →
  get_table table_id w =
    (Ok (mkTable table_id (td_schema t)), w, [EGetTable table_id]).
Proof.
  intros Ht. unfold get_table. rewrite run_call. simpl.
  unfold wh_get_table. by rewrite Ht.
Qed.

Lemma run_get_table_none (w : warehouse) (table_id : string) :
  wh_tables w !! table_id = None →
  get_table table_id w =
    (Raise (NotFound ("Not found: Table " +:+ table_id)), w,
     [EGetTable table_id]).
Proof.
  intros Ht. unfold get_table. rewrite run_call. simpl.
  unfold wh_get_table. by rewrite Ht.
Qed.

Lemma has_ingestion_date_app (table_id : string) (sch : list SchemaField) :
  has_ingestion_date (mkTable table_id (sch ++ [marker_field])) = true.
Proof.
  unfold has_ingestion_date. simpl. rewrite existsb_app. simpl.
  apply orb_true_r.
Qed.

Lemma has_ingestion_date_ref (a b : string) (sch : list SchemaField) :
  has_ingestion_date (mkTable a sch) = has_ingestion_date (mkTable b sch).
Proof. reflexivity. Qed.

(** One run of [_ensure_ingestion_date_column] on a table that exists. *)
Lemma ensure_column_run (w : warehouse) (table_id : string) (t : table_data) :
  wh_tables w !! table_id = Some t →
  _ensure_ingestion_date_column table_id w =
    if has_ingestion_date (mkTable table_id (td_schema t))
    then (Ok tt, w, [EGetTable table_id])
    else
      (Ok tt,
       with_tables w
         (<[table_id := mkTableData (td_schema t ++ [marker_field]) (td_rows t)]>
            (wh_tables w)),
       [EGetTable table_id;
        EUpdateTable (mkTable table_id (td_schema t ++ [marker_field]))
          ["schema"];
        ELog INFO ("🧩 Added Ingestion_date column to: " +:+ table_id)]).
Proof.
  intros Ht. unfold _ensure_ingestion_date_column.
  rewrite run_bind, (run_get_table_some w table_id t Ht). cbv beta iota.
  destruct (has_ingestion_date (mkTable table_id (td_schema t))); [done |].
  rewrite run_bind, run_call. simpl.
  unfold wh_update_table. simpl. rewrite Ht.
  reflexivity.
Qed.

End WarehouseRuns.

(** X4. On an existing table [_ensure_ingestion_date_column] is additive
    and idempotent: the fields the table had stay, in order, the
    nullable DATE field [Ingestion_date] is appended after them unless a
    field of that name is there, rows and other tables are untouched,
    and a second call only reads the metadata. *)
Theorem ensure_column_additive_idempotent (w : Warehouse.warehouse)
    (table_id : string) (t : Warehouse.table_data) :
  Warehouse.wh_tables w !! table_id = Some t →
  ∃ w1 : Warehouse.warehouse,
    (_ensure_ingestion_date_column table_id w).1 = (Ok tt, w1)
    ∧ Warehouse.schema_of w1 table_id =
        Some (if has_ingestion_date (mkTable table_id (Warehouse.td_schema t))
              then Warehouse.td_schema t
              else Warehouse.td_schema t ++ [marker_field])
    ∧ Warehouse.rows_of w1 table_id = Some (Warehouse.td_rows t)
    ∧ (∀ other : string, other ≠ table_id →
         Warehouse.wh_tables w1 !! other = Warehouse.wh_tables w !! other)
    ∧ _ensure_ingestion_date_column table_id w1 =
        (Ok tt, w1, [EGetTable table_id]).
Proof.
  intros Ht. rewrite (ensure_column_run w table_id t Ht).
  destruct (has_ingestion_date (mkTable table_id (Warehouse.td_schema t)))
    eqn:Hcol.
  - exists w. simpl. unfold Warehouse.schema_of, Warehouse.rows_of.
    rewrite Ht. simpl. repeat split; try done.
    rewrite (ensure_column_run w table_id t Ht). by rewrite Hcol.
  - eexists. split; [reflexivity |].
    unfold Warehouse.schema_of, Warehouse.rows_of. simpl.
    rewrite lookup_insert_eq. simpl. repeat split; try done.
    + intros other Hne. by apply lookup_insert_ne.
    + erewrite ensure_column_run; [| simpl; apply lookup_insert_eq].
      simpl Warehouse.td_schema.
      by rewrite has_ingestion_date_app.
Qed.

Lemma ensure_column_additive_idempotent_witness :
  ∃ w1 : Warehouse.warehouse,
    (_ensure_ingestion_date_column "proj.ds.leads" Sample.world).1 =
      (Ok tt, w1)
    ∧ Warehouse.schema_of w1 "proj.ds.leads" =
        Some (Sample.plain_schema ++ [marker_field]).
Proof.
  destruct (ensure_column_additive_idempotent Sample.world "proj.ds.leads"
              (Warehouse.mkTableData Sample.plain_schema []))
    as (w1 & H1 & H2 & _).
  - vm_compute. reflexivity.
  - exists w1. split; [exact H1 |]. rewrite H2. reflexivity.
Defined.

(** ** Creating a table from a file *)

Section CreateRun.
Context {W : Type} {RT : Runtime W}.

(** [with open(path, "rb")]: nothing runs when [open] raises; the file
    is closed after the body on both of its exits. *)
Lemma run_with_open {A} (path : string) (body : M W A) (w : W) :
  with_open path body w =
    match rt_open path w with
    | (Ok _, w1) =>
        match body w1 with
        | (r, w2, t2) => (r, w2, [EOpen path] ++ t2 ++ [EClose path])
        end
    | (Raise e, w1) => (Raise e, w1, [EOpen path])
    end.
Proof.
  unfold with_open. rewrite run_bind, run_call.
  destruct (rt_open path w) as [[[] | e] w1]; cbn [fst snd]; [| done].
  unfold try_finally. by destruct (body w1) as [[r w2] t2].
Qed.

(** [_create_table_and_load], call by call. *)
Lemma create_table_and_load_run (file_path table_id : string) (w : W) :
  let banner :=
    ELog INFO
      ("🆕 Table doesn't exist. Creating table by loading with autodetect: "
         +:+ table_id) in
  let load := ELoadTableFromFile file_path table_id load_cfg in
  _create_table_and_load file_path table_id w =
    match rt_open file_path w with
    | (Raise e, w1) => (Raise e, w1, [banner; EOpen file_path])
    | (Ok _, w1) =>
        match rt_load_table_from_file file_path table_id load_cfg w1 with
        | (Raise e, w2) =>
            (Raise e, w2, [banner; EOpen file_path; load; EClose file_path])
        | (Ok job, w2) =>
            match rt_job_result job w2 with
            | (Raise e, w3) =>
                (Raise e, w3,
                 [banner; EOpen file_path; load; EClose file_path;
                  EJobResult job])
            | (Ok _, w3) =>
                match _ensure_ingestion_date_column table_id w3 with
                | (r, w4, t4) =>
                    (r, w4,
                     [banner; EOpen file_path; load; EClose file_path;
                      EJobResult job;
                      ELog INFO
                        ("📘 Table created & data loaded: " +:+ table_id)]
                       ++ t4)
                end
            end
        end
    end.
Proof.
  intros banner load. unfold _create_table_and_load. rewrite run_bind.
  unfold logger_info at 1. cbv beta iota.
  rewrite run_bind, run_with_open.
  destruct (rt_open file_path w) as [[[] | e] w1]; [| done].
  rewrite run_call.
  destruct (rt_load_table_from_file file_path table_id load_cfg w1)
    as [[job | e] w2]; cbn [fst snd]; [| done].
  rewrite run_bind, run_call.
  destruct (rt_job_result job w2) as [[[] | e] w3]; cbn [fst snd]; [| done].
  rewrite run_bind. unfold logger_info at 1. cbv beta iota.
  by destruct (_ensure_ingestion_date_column table_id w3) as [[r w4] t4].
Qed.

End CreateRun.

Section NewTable.
Import Warehouse.

(** The run that creates a table, when the service reads the file. *)
Lemma create_table_run (w : warehouse) (file_path table_id bytes : string)
    (new : table_data) :
  wh_files w !! file_path = Some bytes →
  sv_load (wh_service w) load_cfg bytes = Ok new →
  (_create_table_and_load file_path table_id w).1 =
    (Ok tt,
     with_tables w
       (<[table_id :=
            mkTableData
              (if has_ingestion_date (mkTable table_id (td_schema new))
               then td_schema new
               else td_schema new ++ [marker_field])
              (td_rows new)]>
          (wh_tables w))).
Proof.
  intros Hf Hload.
  pose proof (create_table_and_load_run file_path table_id w) as Hrun.
  cbv zeta in Hrun. rewrite Hrun. clear Hrun.
  change (rt_open file_path w) with (wh_open file_path w).
  unfold wh_open. rewrite Hf.
  change (rt_load_table_from_file file_path table_id load_cfg w)
    with (wh_load_table_from_file file_path table_id load_cfg w).
  unfold wh_load_table_from_file. rewrite Hf, Hload.
  cbn [write_disposition load_cfg written].
  change (rt_job_result ?j ?x) with (wh_job_result j x).
  cbn [wh_job_result job_error].
  set (w0 := with_tables w (<[table_id := new]> (wh_tables w))).
  assert (Ht0 : wh_tables w0 !! table_id = Some new)
    by (simpl; apply lookup_insert_eq).
  rewrite (ensure_column_run w0 table_id new Ht0).
  destruct (has_ingestion_date (mkTable table_id (td_schema new))).
  - cbn [fst]. by destruct new.
  - cbn [fst]. unfold w0, with_tables. simpl. by rewrite insert_insert_eq.
Qed.

End NewTable.

(** X5. [_create_table_and_load] against the warehouse.  When the file
    cannot be opened the call raises at [open]: no load is submitted
    and nothing changes.  When the service reads the file, under the
    configuration the code passes, as a table [new], the call returns
    normally and the table holds the rows of [new] whatever it held
    before, its columns are those of [new] followed by [Ingestion_date]
    unless [new] has a column of that name, and no other table changes.
    When the service refuses the file, the error is raised by
    [job.result()], after the file is closed, and nothing changes. *)
Theorem create_table_and_load_replaces (w : Warehouse.warehouse)
    (file_path table_id : string) :
  match Warehouse.wh_files w !! file_path with
  | None =>
      _create_table_and_load file_path table_id w =
        (Raise (FileNotFoundError
                  ("No such file or directory: " +:+ file_path)),
         w,
         [ELog INFO
            ("🆕 Table doesn't exist. Creating table by loading with autodetect: "
               +:+ table_id);
          EOpen file_path])
  | Some bytes =>
      match
        Warehouse.sv_load (Warehouse.wh_service w)
          (mkLoadJobConfig CSV 1 true WRITE_TRUNCATE) bytes
      with
      | Ok new =>
          ∃ w1 : Warehouse.warehouse,
            (_create_table_and_load file_path table_id w).1 = (Ok tt, w1)
            ∧ Warehouse.wh_tables w1 !! table_id =
                Some (Warehouse.mkTableData
                        (if has_ingestion_date
                              (mkTable table_id (Warehouse.td_schema new))
                         then Warehouse.td_schema new
                         else Warehouse.td_schema new ++ [marker_field])
                        (Warehouse.td_rows new))
            ∧ ∀ other : string, other ≠ table_id →
                Warehouse.wh_tables w1 !! other =
                  Warehouse.wh_tables w !! other
      | Raise e =>
          _create_table_and_load file_path table_id w =
            (Raise e, w,
             [ELog INFO
                ("🆕 Table doesn't exist. Creating table by loading with autodetect: "
                   +:+ table_id);
              EOpen file_path;
              ELoadTableFromFile file_path table_id
                (mkLoadJobConfig CSV 1 true WRITE_TRUNCATE);
              EClose file_path;
              EJobResult (mkLoadJob table_id (Some e))])
      end
  end.
Proof.
  destruct (Warehouse.wh_files w !! file_path) as [bytes |] eqn:Hf.
  - change (mkLoadJobConfig CSV 1 true WRITE_TRUNCATE) with load_cfg.
    destruct (Warehouse.sv_load (Warehouse.wh_service w) load_cfg bytes)
      as [new | e] eqn:Hload.
    + eexists. split; [by apply (create_table_run w _ _ bytes new) |].
      split; [simpl; apply lookup_insert_eq |].
      intros other Hne. simpl. by apply lookup_insert_ne.
    + pose proof (create_table_and_load_run file_path table_id w) as Hrun.
      cbv zeta in Hrun. rewrite Hrun. clear Hrun.
      change (rt_open file_path w) with (Warehouse.wh_open file_path w).
      unfold Warehouse.wh_open. rewrite Hf.
      change (rt_load_table_from_file file_path table_id load_cfg w)
        with (Warehouse.wh_load_table_from_file file_path table_id load_cfg w).
      unfold Warehouse.wh_load_table_from_file. by rewrite Hf, Hload.
  - pose proof (create_table_and_load_run file_path table_id w) as Hrun.
    cbv zeta in Hrun. rewrite Hrun. clear Hrun.
    change (rt_open file_path w) with (Warehouse.wh_open file_path w).
    unfold Warehouse.wh_open. by rewrite Hf.
Qed.

(** ** The dispatch of [upload_csv] *)

Section Dispatch.
Context {W : Type} {RT : Runtime W}.

Lemma table_exists_run (table_id : string) (w : W) :
  table_exists table_id w =
    match rt_get_table table_id w with
    | (Ok _, w1) => (Ok true, w1, [EGetTable table_id])
    | (Raise _, w1) => (Ok false, w1, [EGetTable table_id])
    end.
Proof.
  unfold table_exists, try_except. rewrite run_bind.
  unfold get_table. rewrite run_call.
  by destruct (rt_get_table table_id w) as [[t | e] w1].
Qed.

(** [upload_csv], with the existence check run: the trace is the banner,
    the clock, the metadata fetch, and then the branch chosen. *)
Lemma upload_csv_run (file_path table_id : string) (w : W) :
  upload_csv file_path table_id w =
    match rt_today w with
    | (d, w1) =>
        match rt_get_table table_id w1 with
        | (r, w2) =>
            match
              (match r with
               | Ok _ =>
                   _append_via_staging_with_casts file_path table_id ;;
                   _set_ingestion_date_if_exists table_id d
               | Raise _ =>
                   _create_table_and_load file_path table_id ;;
                   _set_ingestion_date_if_exists table_id d
               end) w2
            with
            | (r', w3, t3) =>
                (r', w3,
                 [ELog INFO (upload_banner +:+ file_path +:+ " → " +:+ table_id);
                  EToday; EGetTable table_id] ++ t3)
            end
        end
    end.
Proof.
  unfold upload_csv. rewrite run_bind. unfold logger_info at 1.
  cbv beta iota. rewrite run_bind. unfold call_total at 1.
  destruct (rt_today w) as [d w1]. rewrite run_bind, table_exists_run.
  destruct (rt_get_table table_id w1) as [[t | e] w2];
    match goal with
    | |- context [(?m ≫= ?k) w2] => destruct ((m ≫= k) w2) as [[r' w3] t3]
    end; reflexivity.
Qed.

Lemma set_ingestion_date_no_alter (table_id : string) (d : date) :
  emits_only (fun e => alters_schema table_id e = false)
    (_set_ingestion_date_if_exists table_id d).
Proof. unfold _set_ingestion_date_if_exists. emits; done. Qed.

End Dispatch.

(** X6. When the metadata fetch of the existence check succeeds,
    [upload_csv] makes no call that changes the schema of the table: no
    load into it (so no truncation), no schema update and no drop,
    whatever the later calls return. *)
Theorem upload_csv_existing_table_not_replaced {W : Type} {RT : Runtime W}
    (file_path table_id : string) (w w2 : W) (t : Table) :
  rt_get_table table_id (rt_today w).2 = (Ok t, w2) →
  Forall (fun e => alters_schema table_id e = false)
    (upload_csv file_path table_id w).2.
Proof.
  intros Hget. rewrite upload_csv_run.
  destruct (rt_today w) as [d w1]. simpl in Hget. rewrite Hget.
  match goal with
  | |- context [(?m ≫= ?k) w2] =>
      assert (Hb : emits_only (fun e => alters_schema table_id e = false)
                     (m ≫= k))
  end.
  { apply emits_only_bind.
    - intros w'. eapply Forall_impl;
        [apply (append_emits_merge_events file_path table_id w') |].
      by intros e [He _].
    - intros _. apply set_ingestion_date_no_alter. }
  specialize (Hb w2).
  match type of Hb with
  | Forall _ (?run).2 => destruct run as [[r' w3] t3]
  end.
  simpl in *. by repeat constructor.
Qed.

Lemma upload_csv_existing_table_not_replaced_witness :
  Forall (fun e => alters_schema "proj.ds.orders" e = false)
    (upload_csv "/dl/Orders.CSV" "proj.ds.orders" Sample.world).2.
Proof.
  apply (upload_csv_existing_table_not_replaced "/dl/Orders.CSV"
           "proj.ds.orders" Sample.world Sample.world
           (mkTable "proj.ds.orders" Sample.orders_schema)).
  vm_compute. reflexivity.
Defined.

(** X7. When the metadata fetch of the existence check raises, for
    whatever reason, [upload_csv] takes the table for absent and opens
    the file.  When the file opens, the next call to the warehouse is a
    truncating load of the file into the table itself; when it does
    not, the error of [open] leaves [upload_csv] and the warehouse is
    not called again. *)
Theorem upload_csv_fetch_error_means_create {W : Type} {RT : Runtime W}
    (file_path table_id : string) (w w2 : W) (e : exn) :
  rt_get_table table_id (rt_today w).2 = (Raise e, w2) →
  match rt_open file_path w2 with
  | (Ok _, _) =>
      ∃ rest : list event,
        (upload_csv file_path table_id w).2 =
          [ELog INFO (upload_banner +:+ file_path +:+ " → " +:+ table_id);
           EToday;
           EGetTable table_id;
           ELog INFO
             ("🆕 Table doesn't exist. Creating table by loading with autodetect: "
                +:+ table_id);
           EOpen file_path;
           ELoadTableFromFile file_path table_id
             (mkLoadJobConfig CSV 1 true WRITE_TRUNCATE)] ++ rest
  | (Raise e', w3) =>
      upload_csv file_path table_id w =
        (Raise e', w3,
         [ELog INFO (upload_banner +:+ file_path +:+ " → " +:+ table_id);
          EToday;
          EGetTable table_id;
          ELog INFO
            ("🆕 Table doesn't exist. Creating table by loading with autodetect: "
               +:+ table_id);
          EOpen file_path])
  end.
Proof.
  intros Hget. rewrite upload_csv_run.
  destruct (rt_today w) as [d w1]. simpl in Hget. rewrite Hget.
  rewrite run_bind.
  pose proof (create_table_and_load_run file_path table_id w2) as Hrun.
  cbv zeta in Hrun. rewrite Hrun. clear Hrun.
  destruct (rt_open file_path w2) as [[[] | e'] w3]; [| done].
  destruct (rt_load_table_from_file file_path table_id load_cfg w3)
    as [[job | e'] w4]; [| eexists; simpl; reflexivity].
  destruct (rt_job_result job w4) as [[[] | e'] w5];
    [| eexists; simpl; reflexivity].
  destruct (_ensure_ingestion_date_column table_id w5) as [[[[] | e'] w6] t6];
    [| eexists; simpl; reflexivity].
  match goal with
  | |- context [_set_ingestion_date_if_exists ?a ?b ?c] =>
      destruct (_set_ingestion_date_if_exists a b c) as [[r7 w7] t7]
  end.
  eexists. simpl. reflexivity.
Qed.

Lemma upload_csv_fetch_error_means_create_witness :
  ∃ rest : list event,
    (upload_csv "/dl/new.csv" "proj.ds.new" Sample.world).2 =
      [ELog INFO (upload_banner +:+ "/dl/new.csv" +:+ " → " +:+ "proj.ds.new");
       EToday;
       EGetTable "proj.ds.new";
       ELog INFO
         ("🆕 Table doesn't exist. Creating table by loading with autodetect: "
            +:+ "proj.ds.new");
       EOpen "/dl/new.csv";
       ELoadTableFromFile "/dl/new.csv" "proj.ds.new"
         (mkLoadJobConfig CSV 1 true WRITE_TRUNCATE)] ++ rest.
Proof.
  assert (Hget : rt_get_table "proj.ds.new" (rt_today Sample.world).2 =
                 (Raise (NotFound "Not found: Table proj.ds.new"),
                  Sample.world))
    by (vm_compute; reflexivity).
  exact (upload_csv_fetch_error_means_create "/dl/new.csv" "proj.ds.new"
           Sample.world Sample.world
           (NotFound "Not found: Table proj.ds.new") Hget).
Defined.

(** ** The marker after an upload *)

Section Marked.
Import Warehouse.

Lemma hoare_bind_last {W A B} (m : M W A) (k : A → M W B)
    (post : B → W → Prop) :
  (∀ a, hoare (fun _ => True) (k a) post) →
  hoare (fun _ => True) (m ≫= k) post.
Proof.
  intros Hk w _ b Hb. rewrite run_bind in *.
  destruct (m w) as [[[a | e] w1] t1]; simpl in *; [| discriminate].
  specialize (Hk a w1 I b).
  destruct (k a w1) as [[r w2] t2]; simpl in *. by apply Hk.
Qed.

Lemma set_ingestion_date_skip (w : warehouse) (table_id : string)
    (d : date) (t : table_data) :
  wh_tables w !! table_id = Some t →
  has_ingestion_date (mkTable table_id (td_schema t)) = false →
  _set_ingestion_date_if_exists table_id d w =
    (Ok tt, w, [EGetTable table_id]).
Proof.
  intros Ht Hcol. unfold _set_ingestion_date_if_exists.
  rewrite run_bind, (run_get_table_some w table_id t Ht). cbv beta iota.
  by rewrite Hcol.
Qed.

Lemma set_ingestion_date_marks (table_id : string) (d : date) :
  has_char "`" table_id = false →
  hoare (fun _ => True) (_set_ingestion_date_if_exists table_id d)
    (fun _ w => date_never_null w → fully_marked table_id w).
Proof.
  intros Hq w _ a Ha.
  destruct (wh_tables w !! table_id) as [t |] eqn:Ht.
  - destruct (has_ingestion_date (mkTable table_id (td_schema t))) eqn:Hcol.
    + pose proof (set_ingestion_date_run w table_id d t Hq Ht Hcol) as Hrun.
      rewrite (wh_query_update w table_id d t Hq Ht Hcol) in Hrun.
      destruct (_set_ingestion_date_if_exists table_id d w) as [[r w1] tr].
      simpl in *.
      destruct (sv_cast (wh_service w) "DATE" (str_date d)) as [v |] eqn:Hv;
        injection Hrun as -> ->; [| discriminate].
      intros Hnn. eexists. split; [apply lookup_insert_eq |]. intros _. simpl.
      apply Forall_fmap, Forall_forall. intros r _. simpl.
      rewrite update_row_marker.
      destruct (r !! "Ingestion_date") as [x |] eqn:Hr; [rewrite Hr; eauto |].
      destruct v as [x |]; [| by destruct (Hnn (str_date d))].
      simpl. rewrite lookup_insert_eq. eauto.
    + rewrite (set_ingestion_date_skip w table_id d t Ht Hcol). simpl.
      intros _. exists t. split; [done |]. intros H. congruence.
  - unfold _set_ingestion_date_if_exists in Ha.
    rewrite run_bind, (run_get_table_none w table_id Ht) in Ha.
    discriminate.
Qed.

End Marked.

(** X8. After an upload that returns normally the destination exists,
    and if it carries the marker column none of its rows, old or new,
    has a NULL marker.  This holds on both paths, the merge into an
    existing table and the creation of a new one, for a table identity
    without a back quote and a warehouse whose [DATE] of a literal is
    never NULL. *)
Theorem upload_csv_marks_all_rows (w : Warehouse.warehouse)
    (file_path table_id : string) :
  has_char "`" table_id = false →
  (upload_csv file_path table_id w).1.1 = Ok tt →
  date_never_null (upload_csv file_path table_id w).1.2 →
  fully_marked table_id (upload_csv file_path table_id w).1.2.
Proof.
  intros Hq. revert w.
  assert (H : hoare (fun _ => True) (upload_csv file_path table_id)
                (fun _ w => date_never_null w → fully_marked table_id w)).
  { unfold upload_csv. apply hoare_bind_last. intros _.
    apply hoare_bind_last. intros d. apply hoare_bind_last. intros b.
    destruct b; apply hoare_bind_last; intros _;
      by apply set_ingestion_date_marks. }
  intros w Hok. exact (H w I tt Hok).
Qed.

Lemma upload_csv_marks_all_rows_witness :
  fully_marked "proj.ds.new"
    (upload_csv "/dl/new.csv" "proj.ds.new" Sample.world).1.2.
Proof.
  apply (upload_csv_marks_all_rows Sample.world "/dl/new.csv" "proj.ds.new").
  - vm_compute. reflexivity.
  - vm_compute. reflexivity.
  - intros lit.
    assert (Hs : Warehouse.wh_service
                   (upload_csv "/dl/new.csv" "proj.ds.new" Sample.world).1.2
                 = Sample.bigquery) by (vm_compute; reflexivity).
    rewrite Hs. unfold Sample.bigquery, Sample.cast. simpl.
    by destruct (Sample.is_date lit).
Defined.

(** ** The staging table across a merge *)

Section StagingDrop.
Context {W : Type} {RT : Runtime W}.

(** [_append_via_staging_with_casts], call by call. *)
Lemma append_run (file_path target : string) (w : W) :
  _append_via_staging_with_casts file_path target w =
    match rt_now w with
    | (now, w1) =>
        let staging := staging_table_id_of target now in
        let load := ELoadTableFromFile file_path staging load_cfg in
        let t0 :=
          [ENow; ELog INFO ("📥 Loading into staging table: " +:+ staging);
           EOpen file_path] in
        match rt_open file_path w1 with
        | (Raise e, w2) => (Raise e, w2, t0)
        | (Ok _, w2) =>
        match rt_load_table_from_file file_path staging load_cfg w2 with
        | (Raise e, w3) => (Raise e, w3, t0 ++ [load; EClose file_path])
        | (Ok job, w3) =>
        match rt_job_result job w3 with
        | (Raise e, w4) =>
            (Raise e, w4, t0 ++ [load; EJobResult job; EClose file_path])
        | (Ok _, w4) =>
        let t1 := t0 ++ [load; EJobResult job; EClose file_path;
                         EGetTable target] in
        match rt_get_table target w4 with
        | (Raise e, w5) => (Raise e, w5, t1)
        | (Ok tgt_table, w5) =>
        match rt_get_table staging w5 with
        | (Raise e, w6) => (Raise e, w6, t1 ++ [EGetTable staging])
        | (Ok stg_table, w6) =>
        match select_items tgt_table stg_table with
        | Raise e => (Raise e, w6, t1 ++ [EGetTable staging])
        | Ok items =>
        let insert :=
          InsertSelect target (tgt_cols_of tgt_table) items staging in
        let t2 :=
          t1 ++ [EGetTable staging;
                 ELog INFO
                   "🔄 Inserting from staging into target with SAFE_CASTs…";
                 EQuery insert] in
        match rt_query insert w6 with
        | (Raise e, w7) => (Raise e, w7, t2)
        | (Ok _, w7) =>
        match rt_delete_table staging true w7 with
        | (Raise e, w8) => (Raise e, w8, t2 ++ [EDeleteTable staging true])
        | (Ok _, w8) =>
            (Ok tt, w8,
             t2 ++ [EDeleteTable staging true;
                    ELog INFO ("🗑️ Staging table dropped: " +:+ staging)])
        end end end end end end end end
    end.
Proof.
  unfold _append_via_staging_with_casts.
  rewrite run_bind. unfold call_total at 1.
  destruct (rt_now w) as [now w1]. cbv zeta.
  rewrite run_bind. unfold logger_info at 1. cbv beta iota.
  rewrite run_bind, run_with_open.
  destruct (rt_open file_path w1) as [[[] | e0] w2]; [| reflexivity].
  rewrite run_bind, run_call.
  destruct (rt_load_table_from_file _ _ _ w2) as [[job | e0] w3];
    cbn [fst snd]; [| reflexivity].
  rewrite run_call.
  destruct (rt_job_result job w3) as [[[] | e0] w4]; cbn [fst snd];
    [| reflexivity].
  rewrite run_bind. unfold get_table at 1. rewrite run_call.
  destruct (rt_get_table target w4) as [[tgt_table | e0] w5]; cbn [fst snd];
    [| reflexivity].
  rewrite run_bind. unfold get_table at 1. rewrite run_call.
  destruct (rt_get_table _ w5) as [[stg_table | e0] w6]; cbn [fst snd];
    [| reflexivity].
  rewrite run_bind. unfold lift_result at 1.
  destruct (select_items tgt_table stg_table) as [items | e0]; cbv beta iota;
    [| reflexivity].
  rewrite run_bind. unfold logger_info at 1. cbv beta iota.
  rewrite run_bind, run_call.
  destruct (rt_query _ w6) as [[[] | e0] w7]; cbn [fst snd]; [| reflexivity].
  rewrite run_bind, run_call.
  destruct (rt_delete_table _ true w7) as [[[] | e0] w8]; cbn [fst snd];
    reflexivity.
Qed.

End StagingDrop.

(** X9. The staging table is dropped exactly after an INSERT that
    succeeded.  When the merge returns normally its trace ends with the
    INSERT, the drop of its staging table with [not_found_ok] set and
    the closing log line, and no drop comes earlier.  When the merge
    raises, no drop was attempted at all, unless it is the drop itself
    that raised: an exception of the load, of a metadata fetch or of
    the INSERT leaves the staging table to the warehouse. *)
Theorem append_merges_and_drops_staging {W : Type} {RT : Runtime W}
    (file_path target : string) (w : W) :
  let run := _append_via_staging_with_casts file_path target w in
  let staging := staging_table_id_of target (rt_now w).1 in
  (run.1.1 = Ok tt →
     ∃ (pre : list event) (q : statement),
       run.2 = pre ++ [EQuery q; EDeleteTable staging true;
                       ELog INFO ("🗑️ Staging table dropped: " +:+ staging)]
       ∧ omap dropped_table pre = [])
  ∧ (∀ e : exn, run.1.1 = Raise e →
       omap dropped_table run.2 = []
       ∨ ∃ (pre : list event) (q : statement),
           run.2 = pre ++ [EQuery q; EDeleteTable staging true]
           ∧ omap dropped_table pre = []).
Proof.
  intros run staging. subst run staging. rewrite append_run.
  destruct (rt_now w) as [now w1]. cbv zeta. cbn [fst].
  destruct (rt_open file_path w1) as [[[] | e0] w2];
    [| split; [intros H; discriminate H | intros ? _; left; reflexivity]].
  destruct (rt_load_table_from_file _ _ _ w2) as [[job | e0] w3];
    [| split; [intros H; discriminate H | intros ? _; left; reflexivity]].
  destruct (rt_job_result job w3) as [[[] | e0] w4];
    [| split; [intros H; discriminate H | intros ? _; left; reflexivity]].
  destruct (rt_get_table target w4) as [[tgt_table | e0] w5];
    [| split; [intros H; discriminate H | intros ? _; left; reflexivity]].
  destruct (rt_get_table _ w5) as [[stg_table | e0] w6];
    [| split; [intros H; discriminate H | intros ? _; left; reflexivity]].
  destruct (select_items tgt_table stg_table) as [items | e0];
    [| split; [intros H; discriminate H | intros ? _; left; reflexivity]].
  destruct (rt_query _ w6) as [[[] | e0] w7];
    [| split; [intros H; discriminate H | intros ? _; left; reflexivity]].
  destruct (rt_delete_table _ true w7) as [[[] | e0] w8].
  - split; [| intros ? H; discriminate H]. intros _.
    eexists [ENow; _; _; _; _; _; _; _; _], _. split; reflexivity.
  - split; [intros H; discriminate H |]. intros ? _. right.
    eexists [ENow; _; _; _; _; _; _; _; _], _. split; reflexivity.
Qed.

Lemma append_merges_and_drops_staging_witness :
  omap dropped_table
    (_append_via_staging_with_casts "/dl/Orders.CSV" "proj.ds.orders"
       Sample.world).2 = []
  ∧ ∃ pre q,
      (_append_via_staging_with_casts "/dl/leads.csv" "proj.ds.leads"
         Sample.world).2 =
        pre ++ [EQuery q;
                EDeleteTable "proj.ds.leads__stg_20261103040506" true;
                ELog INFO
                  "🗑️ Staging table dropped: proj.ds.leads__stg_20261103040506"].
Proof.
  split.
  - destruct (proj2 (append_merges_and_drops_staging "/dl/Orders.CSV"
                       "proj.ds.orders" Sample.world)
                (BadRequest "Required field cannot be null"))
      as [H | (pre & q & H & _)].
    + vm_compute. reflexivity.
    + exact H.
    + exfalso.
      assert (Hlast : last (_append_via_staging_with_casts "/dl/Orders.CSV"
                              "proj.ds.orders" Sample.world).2
                      = Some (EDeleteTable
                                (staging_table_id_of "proj.ds.orders"
                                   (rt_now Sample.world).1) true))
        by (rewrite H, last_app; reflexivity).
      vm_compute in Hlast. discriminate Hlast.
  - destruct (proj1 (append_merges_and_drops_staging "/dl/leads.csv"
                       "proj.ds.leads" Sample.world))
      as (pre & q & H & _).
    + vm_compute. reflexivity.
    + exists pre, q. exact H.
Defined.

(** ** A new table from end to end *)

Section EndToEnd.
Import Warehouse.

Lemma run_bind_fst {W A B} (m : M W A) (k : A → M W B) (w w1 : W) (a : A) :
  (m w).1 = (Ok a, w1) → ((m ≫= k) w).1 = (k a w1).1.
Proof.
  intros Hm. rewrite run_bind. destruct (m w) as [[r w'] t1].
  simpl in Hm. injection Hm as -> ->. by destruct (k a w1) as [[r2 w2] t2].
Qed.

End EndToEnd.

(** X11. An upload to a table that does not exist, from a file the
    service reads as a table [new] under the configuration the code
    passes, returns normally.  The table then holds the rows of [new],
    each row without a marker carrying the value of the run date; its
    columns are those of [new] followed by [Ingestion_date] unless
    [new] has a column of that name; no other table changes.  The table
    identity holds no back quote and the warehouse reads the run
    date. *)
Theorem upload_csv_creates_marked_table (w : Warehouse.warehouse)
    (file_path table_id bytes : string) (new : Warehouse.table_data)
    (v : string) :
  has_char "`" table_id = false →
  Warehouse.wh_tables w !! table_id = None →
  Warehouse.wh_files w !! file_path = Some bytes →
  Warehouse.sv_load (Warehouse.wh_service w)
    (mkLoadJobConfig CSV 1 true WRITE_TRUNCATE) bytes = Ok new →
  Warehouse.sv_cast (Warehouse.wh_service w) "DATE"
    (str_date (dt_date (Warehouse.wh_clock w))) = Some (Some v) →
  ∃ w1 : Warehouse.warehouse,
    (upload_csv file_path table_id w).1 = (Ok tt, w1)
    ∧ Warehouse.wh_tables w1 !! table_id =
        Some (Warehouse.mkTableData
                (if has_ingestion_date
                      (mkTable table_id (Warehouse.td_schema new))
                 then Warehouse.td_schema new
                 else Warehouse.td_schema new ++ [marker_field])
                ((fun r : gmap string string =>
                    match r !! "Ingestion_date" with
                    | Some _ => r
                    | None => <["Ingestion_date" := v]> r
                    end) <$> Warehouse.td_rows new))
    ∧ ∀ other : string, other ≠ table_id →
        Warehouse.wh_tables w1 !! other = Warehouse.wh_tables w !! other.
Proof.
  intros Hq Hnone Hf Hload Hcast.
  set (sch1 := if has_ingestion_date
                    (mkTable table_id (Warehouse.td_schema new))
               then Warehouse.td_schema new
               else Warehouse.td_schema new ++ [marker_field]).
  set (t1 := Warehouse.mkTableData sch1 (Warehouse.td_rows new)).
  set (w1 := Warehouse.with_tables w
               (<[table_id := t1]> (Warehouse.wh_tables w))).
  assert (Ht1 : Warehouse.wh_tables w1 !! table_id = Some t1)
    by (simpl; apply lookup_insert_eq).
  assert (Hcol : has_ingestion_date (mkTable table_id sch1) = true).
  { unfold sch1.
    destruct (has_ingestion_date (mkTable table_id (Warehouse.td_schema new)))
      eqn:E; [exact E | apply has_ingestion_date_app]. }
  assert (Hup : (upload_csv file_path table_id w).1 =
                (_set_ingestion_date_if_exists table_id
                   (dt_date (Warehouse.wh_clock w)) w1).1).
  { rewrite upload_csv_run.
    change (rt_today w) with (Warehouse.wh_today w).
    unfold Warehouse.wh_today.
    change (rt_get_table table_id w) with (Warehouse.wh_get_table table_id w).
    unfold Warehouse.wh_get_table. rewrite Hnone.
    pose proof (run_bind_fst (_create_table_and_load file_path table_id)
                  (fun _ => _set_ingestion_date_if_exists table_id
                              (dt_date (Warehouse.wh_clock w)))
                  w w1 tt
                  (create_table_run w file_path table_id bytes new Hf Hload))
      as Hb.
    match goal with
    | |- context [(?m ≫= ?k) w] =>
        change ((m ≫= k) w)
          with ((_create_table_and_load file_path table_id ≫=
                   (fun _ => _set_ingestion_date_if_exists table_id
                               (dt_date (Warehouse.wh_clock w)))) w)
    end.
    destruct ((_create_table_and_load file_path table_id ≫= _) w)
      as [[r3 w3] t3].
    exact Hb. }
  rewrite Hup.
  rewrite (set_ingestion_date_run w1 table_id _ t1 Hq Ht1 Hcol).
  rewrite (wh_query_update w1 table_id _ t1 Hq Ht1 Hcol).
  change (Warehouse.wh_service w1) with (Warehouse.wh_service w).
  rewrite Hcast.
  eexists. split; [reflexivity |]. split.
  - simpl. rewrite lookup_insert_eq. f_equal. f_equal.
    apply list_fmap_ext. intros i r _. by rewrite update_row_marker.
  - intros other Hne. simpl. by rewrite !lookup_insert_ne.
Qed.

Lemma upload_csv_creates_marked_table_witness :
  ∃ w1 : Warehouse.warehouse,
    (upload_csv "/dl/new.csv" "proj.ds.new" Sample.world).1 = (Ok tt, w1)
    ∧ Warehouse.wh_tables w1 !! "proj.ds.new" =
        Some (Warehouse.mkTableData
                [ SchemaField2 "a" "STRING"; SchemaField2 "b" "STRING";
                  SchemaField2 "Ingestion_date" "DATE" ]
                [ {[ "a" := "1"; "b" := "x";
                     "Ingestion_date" := "2026-11-03" ]};
                  {[ "b" := "y"; "Ingestion_date" := "2026-11-03" ]} ]).
Proof.
  destruct (upload_csv_creates_marked_table Sample.world "/dl/new.csv"
              "proj.ds.new"
              ("a,b" +:+ nl +:+ "1,x" +:+ nl +:+ ",y" +:+ nl)
              (Warehouse.mkTableData
                 [SchemaField2 "a" "STRING"; SchemaField2 "b" "STRING"]
                 [ {[ "a" := "1"; "b" := "x" ]}; {[ "b" := "y" ]} ])
              "2026-11-03")
    as (w1 & H1 & H2 & _).
  - vm_compute. reflexivity.
  - vm_compute. reflexivity.
  - vm_compute. reflexivity.
  - vm_compute. reflexivity.
  - vm_compute. reflexivity.
  - exists w1. split; [exact H1 |]. etrans; [exact H2 |].
    vm_compute. reflexivity.
Defined.

(** ** The rows of the destination across a merge *)

Section KeptRows.
Import Warehouse.

Lemma wh_load_keeps_rows (file_path table_id : string) (cfg : LoadJobConfig)
    (w : warehouse) (t : string) :
  table_id ≠ t →
  rows_of (wh_load_table_from_file file_path table_id cfg w).2 t = rows_of w t.
Proof.
  intros Hne. unfold rows_of, wh_load_table_from_file.
  destruct (wh_files w !! file_path); [| done].
  destruct (sv_load (wh_service w) cfg s); [| done].
  destruct (written _ _ _); [| done]. simpl. by rewrite lookup_insert_ne.
Qed.

Lemma wh_delete_keeps_rows (table_id : string) (nf : bool) (w : warehouse)
    (t : string) :
  table_id ≠ t →
  rows_of (wh_delete_table table_id nf w).2 t = rows_of w t.
Proof.
  intros Hne. unfold rows_of, wh_delete_table.
  destruct (wh_tables w !! table_id); simpl.
  - by rewrite lookup_delete_ne.
  - by destruct nf.
Qed.

(** The text of the INSERT reads as an INSERT or not at all. *)
Lemma parse_insert_sql (target : string) (cols exprs : list string)
    (staging : string) :
  Sql.parse (insert_sql target cols exprs staging) = None
  ∨ ∃ i, Sql.parse (insert_sql target cols exprs staging)
         = Some (Sql.AInsert i).
Proof.
  unfold Sql.parse, Sql.tokens, insert_sql.
  erewrite lex_app_eq by (vm_compute; reflexivity).
  erewrite lex_app_eq by (vm_compute; reflexivity).
  cbn [app Sql.parse_tokens String.eqb Ascii.eqb Bool.eqb].
  match goal with
  | |- context [Sql.parse_insert ?ts] => destruct (Sql.parse_insert ts)
  end; simpl; eauto.
Qed.

(** An INSERT leaves the rows a table had in place and puts its own
    after them. *)
Lemma exec_insert_extends_rows (i : Sql.insert_stmt) (w : warehouse)
    (t : string) (rows0 : list (gmap string string)) :
  (∃ extra, rows_of w t = Some (rows0 ++ extra)) →
  ∃ extra, rows_of (exec_insert i w).2 t = Some (rows0 ++ extra).
Proof.
  intros [extra Hrows]. unfold rows_of, exec_insert in *.
  destruct (wh_tables w !! Sql.i_table i) as [tgt |] eqn:Ht;
    destruct (wh_tables w !! Sql.i_source i) as [src |] eqn:Hs; eauto.
  case_match; eauto. case_match; eauto. case_match; eauto. simpl.
  destruct (decide (Sql.i_table i = t)) as [<- | Hne].
  - rewrite lookup_insert_eq. simpl. rewrite Ht in Hrows.
    injection Hrows as ->. eexists. by rewrite <- app_assoc.
  - rewrite lookup_insert_ne by done. eauto.
Qed.

Lemma wh_insert_extends_rows (target : string) (cols : list string)
    (items : list select_item) (staging : string) (w : warehouse)
    (t : string) (rows0 : list (gmap string string)) :
  (∃ extra, rows_of w t = Some (rows0 ++ extra)) →
  ∃ extra,
    rows_of (wh_query (InsertSelect target cols items staging) w).2 t =
      Some (rows0 ++ extra).
Proof.
  intros Hrows. unfold wh_query, exec_sql. cbn [sql_text].
  destruct (parse_insert_sql target cols (render_item <$> items) staging)
    as [-> | [i ->]]; [done |].
  by apply exec_insert_extends_rows.
Qed.

Lemma append_extends_rows (file_path target : string)
    (rows0 : list (gmap string string)) :
  preserves (fun w => ∃ extra, rows_of w target = Some (rows0 ++ extra))
    (_append_via_staging_with_casts file_path target).
Proof.
  unfold _append_via_staging_with_casts.
  apply preserves_bind; [by apply preserves_call_total |].
  intros now. pose proof (staging_is_not_target target now) as Hne.
  apply preserves_bind; [apply preserves_info |]. intros _.
  apply preserves_bind.
  { apply preserves_with_open.
    - intros w Hw. change (rt_open file_path w) with (wh_open file_path w).
      by rewrite wh_open_keeps.
    - apply preserves_bind.
      + apply preserves_call. intros w [extra Hw]. exists extra.
        rewrite <- Hw. by apply wh_load_keeps_rows.
      + intros job. apply preserves_call. intros w Hw.
        change (rt_job_result job w) with (wh_job_result job w).
        by rewrite wh_job_result_keeps. }
  intros _.
  apply preserves_bind.
  { apply preserves_call. intros w Hw.
    change (rt_get_table target w) with (wh_get_table target w).
    by rewrite wh_get_table_keeps. }
  intros tgt_table.
  apply preserves_bind.
  { apply preserves_call. intros w Hw.
    change (rt_get_table ?t w) with (wh_get_table t w).
    by rewrite wh_get_table_keeps. }
  intros stg_table.
  apply preserves_bind; [apply preserves_lift |]. intros items.
  apply preserves_bind; [apply preserves_info |]. intros _.
  apply preserves_bind.
  { apply preserves_call. intros w Hw. by apply wh_insert_extends_rows. }
  intros _.
  apply preserves_bind; [| intros _; apply preserves_info].
  apply preserves_call. intros w [extra Hw]. exists extra. rewrite <- Hw.
  by apply wh_delete_keeps_rows.
Qed.

End KeptRows.

(** X10. On every exit, normal or not, the merge leaves the rows the
    destination had where they were, unchanged and in order; whatever
    it adds comes after them. *)
Theorem append_never_rewrites_rows (w : Warehouse.warehouse)
    (file_path target : string) (rows0 : list (gmap string string)) :
  Warehouse.rows_of w target = Some rows0 →
  ∃ extra : list (gmap string string),
    Warehouse.rows_of
      (_append_via_staging_with_casts file_path target w).1.2 target =
      Some (rows0 ++ extra).
Proof.
  intros Hrows.
  apply (append_extends_rows file_path target rows0 w).
  exists []. by rewrite app_nil_r.
Qed.

Lemma append_never_rewrites_rows_witness :
  ∃ extra : list (gmap string string),
    Warehouse.rows_of
      (_append_via_staging_with_casts "/dl/Orders.CSV" "proj.ds.orders"
         Sample.world).1.2 "proj.ds.orders" =
      Some (Sample.orders_rows ++ extra).
Proof.
  apply (append_never_rewrites_rows Sample.world "/dl/Orders.CSV"
           "proj.ds.orders" Sample.orders_rows).
  vm_compute. reflexivity.
Defined.

(** ** One round of the batch *)

(** X13. For a considered file the removal comes last: the trace of
    its round is the upload, from its first line on, then the call of
    [os.remove] and one closing log line, which reports the deletion or
    the error of [os.remove]; no call of the upload follows the
    removal, and the round returns normally. *)
Theorem process_file_removes_after_upload {W : Type} {RT : Runtime W}
    (self : BigQueryUploader) (file_name : string) (w : W) :
  considered file_name = true →
  ∃ (t : list event) (line : event),
    (process_file self file_name w).1.1 = Ok tt
    ∧ (process_file self file_name w).2 =
        ELog INFO (upload_banner +:+ upload_line self file_name)
          :: t ++ [ERemove (file_path_of self file_name); line]
    ∧ Forall inner_event t
    ∧ (line = ELog INFO ("🗑️ Deleted file: " +:+ file_name)
       ∨ ∃ e : exn,
           line = ELog ERROR ("❌ Could not delete " +:+ file_name +:+ ": "
                                +:+ str_exn e)).
Proof.
  intros Hc. unfold process_file. rewrite Hc. simpl.
  unfold try_finally.
  destruct (upload_block_run (file_path_of self file_name)
              (table_id_of self file_name) file_name w)
    as (w1 & t & -> & Hin).
  destruct (remove_block_line (file_path_of self file_name) file_name w1)
    as (w2 & line & -> & Hline).
  exists t, line. done.
Qed.

Lemma process_file_removes_after_upload_witness :
  ∃ t : list event,
    (process_file Sample.uploader "Orders.CSV" Sample.world).2 =
      ELog INFO (upload_banner +:+ upload_line Sample.uploader "Orders.CSV")
        :: t ++ [ERemove "/dl/Orders.CSV";
                 ELog INFO "🗑️ Deleted file: Orders.CSV"].
Proof.
  destruct (process_file_removes_after_upload Sample.uploader "Orders.CSV"
              Sample.world) as (t & line & _ & H & _ & Hline).
  - vm_compute. reflexivity.
  - exists t. rewrite H.
    assert (Hlast : last (process_file Sample.uploader "Orders.CSV"
                            Sample.world).2
                    = Some (ELog INFO "🗑️ Deleted file: Orders.CSV"))
      by (vm_compute; reflexivity).
    rewrite H in Hlast.
    change (?x :: t ++ [?r; line]) with ((x :: t) ++ [r; line]) in Hlast.
    rewrite last_app in Hlast. simpl in Hlast.
    by injection Hlast as ->.
Defined.

(** ** Table names *)

Section TableNames.

Local Arguments String.append !_ _ / : simpl nomatch.

Lemma lower_char_idemp (c : ascii) :
  Py.lower_char (Py.lower_char c) = Py.lower_char c.
Proof. destruct c as [[] [] [] [] [] [] [] []]; reflexivity. Qed.

Lemma lower_idemp (s : string) : Py.lower (Py.lower s) = Py.lower s.
Proof.
  induction s as [| c s IH]; simpl; [done |].
  by rewrite lower_char_idemp, IH.
Qed.

(** Where [rfind] points there is the character, and none after it. *)
Lemma rfind_from_found (c : ascii) (s : string) (i last : Z) :
  (Py.rfind_from c s i last = last ∧ has_char c s = false)
  ∨ ∃ (n : nat) (rest : string),
      Py.rfind_from c s i last = (i + Z.of_nat n)%Z
      ∧ Py.drop n s = String c rest
      ∧ has_char c rest = false.
Proof.
  revert i last. induction s as [| d s IH]; intros i last; simpl.
  - by left.
  - destruct (IH (i + 1)%Z (if Ascii.eqb d c then i else last))
      as [[Hr Hno] | (n & rest & Hr & Hd & Hno)].
    + destruct (Ascii.eqb_spec d c) as [-> | Hne].
      * right. exists 0, s. rewrite Hr. simpl.
        split; [f_equal; lia | done].
      * left. by rewrite Hr, Hno.
    + right. exists (S n), rest. rewrite Hr. simpl.
      split; [lia | done].
Qed.

Lemma skip_leading_dots_cases (fuel : nat) (p : string) (i d : Z) :
  OsPath.skip_leading_dots fuel p i d = (p, "")
  ∨ OsPath.skip_leading_dots fuel p i d =
      (Py.take (Z.to_nat d) p, Py.drop (Z.to_nat d) p).
Proof.
  revert i. induction fuel as [| fuel IH]; intros i; simpl; [by left |].
  destruct (i <? d)%Z; [| by left].
  destruct (String.eqb (Py.char_at p i) "."); simpl; [apply IH | by right].
Qed.

(** [splitext] removes nothing, or a last dot and the dotless text after
    it. *)
Lemma splitext_cases (p : string) :
  OsPath.splitext p = (p, "")
  ∨ ∃ n rest,
      OsPath.splitext p = (Py.take n p, String "." rest)
      ∧ Py.drop n p = String "." rest
      ∧ has_char "." rest = false.
Proof.
  unfold OsPath.splitext, Py.rfind.
  destruct (rfind_from_found "." p 0 (-1))
    as [[Hr _] | (n & rest & Hr & Hd & Hno)].
  - rewrite Hr.
    destruct (Z.ltb_spec (Py.rfind_from "/" p 0 (-1)) (-1)) as [Hlt | _];
      [| by left].
    exfalso.
    destruct (rfind_from_found "/" p 0 (-1)) as [[Hs _] | (n & r & Hs & _)];
      lia.
  - rewrite Hr. destruct (_ <? _)%Z; [| by left].
    match goal with
    | |- context [OsPath.skip_leading_dots ?a ?b ?c ?d] =>
        destruct (skip_leading_dots_cases a b c d) as [-> | ->]
    end; [by left |].
    right. exists n, rest.
    replace (Z.to_nat (0 + Z.of_nat n)) with n by lia.
    by rewrite Hd.
Qed.

End TableNames.

(** X14. The table name derived from a file name is the lower case of
    the name with nothing removed, or with only a last dot and the
    dotless text after it removed: of several extensions only the last
    is dropped.  For an ASCII name the table name is in ASCII lower
    case and is a prefix of the lower-cased name. *)
Theorem table_name_lowercase_prefix {W : Type} {RT : Runtime W}
    (file_name : string) :
  ∃ root rest : string,
    file_name = root +:+ rest
    ∧ table_name_of file_name = str_lower root
    ∧ (rest = ""
       ∨ ∃ ext : string,
           rest = String "." ext ∧ has_char "." ext = false)
    ∧ (Py.isascii file_name = true →
         Py.lower (table_name_of file_name) = table_name_of file_name
         ∧ Py.lower file_name = table_name_of file_name +:+ Py.lower rest).
Proof.
  unfold table_name_of.
  assert (Hascii : ∀ root rest : string,
            file_name = root +:+ rest → Py.isascii file_name = true →
            Py.lower (str_lower root) = str_lower root
            ∧ Py.lower file_name = str_lower root +:+ Py.lower rest).
  { intros root rest -> Ha. rewrite isascii_app in Ha.
    apply andb_prop in Ha as [Hr _]. rewrite (str_lower_ascii _ Hr).
    split; [apply lower_idemp | apply lower_app]. }
  destruct (splitext_cases file_name) as [-> | (n & rest & -> & Hd & Hno)].
  - exists file_name, "". cbn [fst].
    assert (Hn : file_name = file_name +:+ "") by (by rewrite app_empty_r).
    split; [exact Hn |]. split; [done |]. split; [by left |].
    exact (Hascii _ _ Hn).
  - exists (Py.take n file_name), (String "." rest). cbn [fst].
    assert (Hn : file_name = Py.take n file_name +:+ String "." rest)
      by (by rewrite <- Hd, take_drop).
    split; [exact Hn |]. split; [done |].
    split; [right; by exists rest |]. exact (Hascii _ _ Hn).
Qed.

(** ** The download directory after a batch *)

Lemma preserves_error {W : Type} (I : W → Prop) msg :
  preserves I (logger_error msg : M W unit).
Proof. by intros w Hw. Qed.

Lemma preserves_try_except {W A : Type} (I : W → Prop) (body : M W A)
    (handler : exn → M W A) :
  preserves I body → (∀ e, preserves I (handler e)) →
  preserves I (try_except body handler).
Proof.
  intros Hb Hh w Hw. unfold try_except. specialize (Hb w Hw).
  destruct (body w) as [[[a | e] w1] t1]; simpl in *; [done |].
  specialize (Hh e w1 Hb). by destruct (handler e w1) as [[r w2] t2].
Qed.

Ltac keeps :=
  repeat match goal with
    | |- preserves _ (mret _) => apply preserves_ret
    | |- preserves _ (lift_result _) => apply preserves_lift
    | |- preserves _ (try_except _ _) =>
        apply preserves_try_except; [| intros ?]
    | |- preserves _ (_ ≫= _) => apply preserves_bind; [| intros ?]
    | |- preserves _ (call _ _) => apply preserves_call
    | |- preserves _ (call_total _ _) => apply preserves_call_total
    | |- preserves _ (logger_info _) => apply preserves_info
    | |- preserves _ (logger_error _) => apply preserves_error
    | |- preserves _ (with_open _ _) => unfold with_open
    | |- preserves _ (try_finally _ _) => apply preserves_try_finally
    | |- preserves _ (get_table _) => unfold get_table
    | |- preserves _ (table_exists _) => unfold table_exists
    | |- preserves _ (if ?b then _ else _) => destruct b
    end.

Section Directory.
Import Warehouse.

(** No call to the warehouse touches the file system. *)
Lemma wh_get_table_fs (table_id : string) (w : warehouse) :
  wh_dirs (wh_get_table table_id w).2 = wh_dirs w
  ∧ wh_files (wh_get_table table_id w).2 = wh_files w.
Proof. by rewrite wh_get_table_keeps. Qed.

Lemma wh_open_fs (path : string) (w : warehouse) :
  wh_dirs (wh_open path w).2 = wh_dirs w
  ∧ wh_files (wh_open path w).2 = wh_files w.
Proof. by rewrite wh_open_keeps. Qed.

Lemma wh_job_result_fs (job : LoadJob) (w : warehouse) :
  wh_dirs (wh_job_result job w).2 = wh_dirs w
  ∧ wh_files (wh_job_result job w).2 = wh_files w.
Proof. by rewrite wh_job_result_keeps. Qed.

Lemma wh_load_fs (file_path table_id : string) (cfg : LoadJobConfig)
    (w : warehouse) :
  wh_dirs (wh_load_table_from_file file_path table_id cfg w).2 = wh_dirs w
  ∧ wh_files (wh_load_table_from_file file_path table_id cfg w).2
    = wh_files w.
Proof. unfold wh_load_table_from_file. by repeat case_match. Qed.

Lemma wh_query_fs (q : statement) (w : warehouse) :
  wh_dirs (wh_query q w).2 = wh_dirs w
  ∧ wh_files (wh_query q w).2 = wh_files w.
Proof.
  unfold wh_query, exec_sql.
  destruct (Sql.parse (sql_text q)) as [[u | i] |]; [| | done].
  - unfold exec_update. by repeat case_match.
  - unfold exec_insert. by repeat case_match.
Qed.

Lemma wh_delete_table_fs (table_id : string) (nf : bool) (w : warehouse) :
  wh_dirs (wh_delete_table table_id nf w).2 = wh_dirs w
  ∧ wh_files (wh_delete_table table_id nf w).2 = wh_files w.
Proof. unfold wh_delete_table. by repeat case_match. Qed.

Lemma wh_update_table_fs (table : Table) (fields : list string)
    (w : warehouse) :
  wh_dirs (wh_update_table table fields w).2 = wh_dirs w
  ∧ wh_files (wh_update_table table fields w).2 = wh_files w.
Proof. unfold wh_update_table. by repeat case_match. Qed.

(** No call of an upload touches the file system. *)
Lemma upload_csv_keeps_files (file_path table_id : string)
    (D : gmap string (list string)) (F : gmap string string) :
  preserves (fun w => wh_dirs w = D ∧ wh_files w = F)
    (upload_csv file_path table_id).
Proof.
  unfold upload_csv, _append_via_staging_with_casts, _create_table_and_load,
    _ensure_ingestion_date_column, _set_ingestion_date_if_exists.
  keeps;
    intros w [<- <-];
    lazymatch goal with
    | |- context [rt_get_table _ _] => apply wh_get_table_fs
    | |- context [rt_open _ _] => apply wh_open_fs
    | |- context [rt_job_result _ _] => apply wh_job_result_fs
    | |- context [rt_load_table_from_file _ _ _ _] => apply wh_load_fs
    | |- context [rt_query _ _] => apply wh_query_fs
    | |- context [rt_delete_table _ _ _] => apply wh_delete_table_fs
    | |- context [rt_update_table _ _ _] => apply wh_update_table_fs
    | |- _ => done
    end.
Qed.

End Directory.

Section DirectoryLoop.
Import Warehouse.

Lemma filter_ext_in {A} (P Q : A → Prop) `{∀ x, Decision (P x)}
    `{∀ x, Decision (Q x)} (l : list A) :
  (∀ x, x ∈ l → (P x ↔ Q x)) → filter P l = filter Q l.
Proof.
  induction l as [| a l IH]; intros Hext; [done |].
  rewrite !filter_cons.
  assert (Ha : P a ↔ Q a) by (apply Hext; left).
  rewrite IH by (intros x Hx; apply Hext; by right).
  destruct (decide (P a)), (decide (Q a)); tauto.
Qed.

Lemma filter_all {A} (P : A → Prop) `{∀ x, Decision (P x)} (l : list A) :
  (∀ x, x ∈ l → P x) → filter P l = l.
Proof.
  induction l as [| a l IH]; intros Hall; [done |].
  rewrite filter_cons. destruct (decide (P a)) as [_ | Hn].
  - f_equal. apply IH. intros x Hx. apply Hall. by right.
  - destruct Hn. apply Hall. left.
Qed.

Lemma app_inv_head_str (s x y : string) : s +:+ x = s +:+ y → x = y.
Proof.
  induction s as [| c s IH]; [done |].
  change (String c s +:+ x) with (String c (s +:+ x)).
  change (String c s +:+ y) with (String c (s +:+ y)).
  intros [= H]. by apply IH.
Qed.

Lemma join_inj (a b b' : string) :
  Py.startswith b "/" = false → Py.startswith b' "/" = false →
  OsPath.join a b = OsPath.join a b' → b = b'.
Proof.
  unfold OsPath.join. intros -> ->.
  destruct (String.eqb a "" || Py.endswith a "/"); intros H.
  - by apply app_inv_head_str in H.
  - apply app_inv_head_str in H. by apply (app_inv_head_str "/") in H.
Qed.

(** What one round does to the file system. *)
Lemma process_file_fs (self : BigQueryUploader) (file_name : string)
    (w : warehouse) :
  considered file_name = true →
  match wh_files w !! file_path_of self file_name with
  | Some _ =>
      wh_dirs (process_file self file_name w).1.2 =
        map_imap
          (fun dir names =>
             Some (filter (fun n => OsPath.join dir n
                                    ≠ file_path_of self file_name) names))
          (wh_dirs w)
      ∧ wh_files (process_file self file_name w).1.2 =
          delete (file_path_of self file_name) (wh_files w)
  | None =>
      wh_dirs (process_file self file_name w).1.2 = wh_dirs w
      ∧ wh_files (process_file self file_name w).1.2 = wh_files w
  end.
Proof.
  intros Hc. unfold process_file. rewrite Hc. simpl.
  unfold try_finally.
  match goal with
  | |- context [try_except (upload_csv ?p ?t ≫= ?k) ?h w] =>
      assert (Hup : preserves
                      (fun w' => wh_dirs w' = wh_dirs w
                                 ∧ wh_files w' = wh_files w)
                      (try_except (upload_csv p t ≫= k) h));
      [| specialize (Hup w (conj eq_refl eq_refl));
         destruct (try_except (upload_csv p t ≫= k) h w) as [[r w1] t1]]
  end.
  { apply preserves_try_except.
    - apply preserves_bind; [apply upload_csv_keeps_files |].
      intros _. apply preserves_info.
    - intros e. apply preserves_bind; [apply preserves_error |].
      intros _. apply preserves_error. }
  simpl in Hup. destruct Hup as [HD HF].
  unfold try_except. rewrite run_bind, run_call.
  change (rt_remove ?p w1) with (wh_remove p w1). unfold wh_remove.
  rewrite HF.
  destruct (wh_files w !! file_path_of self file_name); simpl;
    by rewrite ?HD, ?HF.
Qed.

Lemma process_file_skips (self : BigQueryUploader) (file_name : string)
    (w : warehouse) :
  considered file_name = false →
  process_file self file_name w = (Ok tt, w, []).
Proof. intros Hc. unfold process_file. by rewrite Hc. Qed.

Lemma for_each_cons_world {A} (body : A → M warehouse unit) (x : A)
    (xs : list A) (w : warehouse) :
  (body x w).1.1 = Ok tt →
  (for_each (x :: xs) body w).1.2 = (for_each xs body (body x w).1.2).1.2.
Proof.
  intros Hok. simpl. unfold bind.
  destruct (body x w) as [[r w1] t1]. simpl in *. subst r.
  by destruct (for_each xs body w1) as [[r2 w2] t2].
Qed.

(** The loop over the files still to do: when it ends, the listing of
    the download directory holds the names that were not considered,
    and no considered file is left. *)
Lemma batch_loop_fs (self : BigQueryUploader) (names : list string) :
  NoDup names →
  Forall (fun n => Py.startswith n "/" = false) names →
  ∀ (rest : list string) (w : warehouse),
    NoDup rest → rest ⊆ names →
    wh_dirs w !! download_path self =
      Some (filter (fun n => considered n = false ∨ n ∈ rest) names) →
    (∀ n, n ∈ rest → considered n = true →
          is_Some (wh_files w !! file_path_of self n)) →
    (∀ n, n ∈ names → considered n = true → n ∉ rest →
          wh_files w !! file_path_of self n = None) →
    wh_dirs (for_each rest (process_file self) w).1.2 !! download_path self =
      Some (filter (fun n => considered n = false) names)
    ∧ ∀ n, n ∈ names → considered n = true →
        wh_files (for_each rest (process_file self) w).1.2
          !! file_path_of self n = None.
Proof.
  intros Hnd Hslash. rewrite Forall_forall in Hslash.
  induction rest as [| n rest IH]; intros w Hndr Hsub Hdir Hex Hgone.
  - simpl. split.
    + rewrite Hdir. f_equal. apply list_filter_iff. intros x. split.
      * intros [? | Hin]; [done | by apply elem_of_nil in Hin].
      * by left.
    + intros m Hm Hc. apply Hgone; [done | done | apply not_elem_of_nil].
  - apply NoDup_cons in Hndr as [Hn Hndr].
    assert (Hin : n ∈ names) by (apply Hsub; left).
    assert (Hsub' : rest ⊆ names) by (intros x Hx; apply Hsub; by right).
    rewrite for_each_cons_world by apply process_file_run.
    destruct (considered n) eqn:Hc.
    + pose proof (process_file_fs self n w Hc) as Hfs.
      destruct (Hex n (list_elem_of_here _ _) Hc) as [f Hf].
      rewrite Hf in Hfs. destruct Hfs as [HD HF].
      apply IH; try done.
      * rewrite HD, map_lookup_imap, Hdir. simpl.
        rewrite list_filter_filter. f_equal. apply filter_ext_in.
        intros m Hm. unfold file_path_of. split.
        -- intros [Hne [Hnc | Hmr]]; [by left |].
           apply elem_of_cons in Hmr as [-> | Hmr]; [done | by right].
        -- intros [Hnc | Hmr]; (split; [| by (left + (right; right))]).
           ++ intros Hj. apply join_inj in Hj; [| by apply Hslash ..].
              congruence.
           ++ intros Hj. apply join_inj in Hj; [| by apply Hslash ..].
              congruence.
      * intros m Hm Hmc. rewrite HF. rewrite lookup_delete_ne.
        -- apply Hex; [by right | done].
        -- unfold file_path_of. intros Hj.
           apply join_inj in Hj; [| apply Hslash; auto ..]. congruence.
      * intros m Hm Hmc Hmr. rewrite HF.
        destruct (decide (m = n)) as [-> | Hne].
        -- apply lookup_delete_eq.
        -- rewrite lookup_delete_ne.
           ++ apply Hgone; try done. by apply not_elem_of_cons.
           ++ unfold file_path_of. intros Hj.
              apply join_inj in Hj; [| apply Hslash; auto ..]. congruence.
    + rewrite (process_file_skips self n w Hc). simpl.
      apply IH; try done.
      * rewrite Hdir. f_equal. apply filter_ext_in. intros m Hm. split.
        -- intros [Hnc | Hmr]; [by left |].
           apply elem_of_cons in Hmr as [-> | Hmr]; [by left | by right].
        -- intros [Hnc | Hmr]; [by left | right; by right].
      * intros m Hm Hmc. apply Hex; [by right | done].
      * intros m Hm Hmc Hmr. apply Hgone; try done.
        apply not_elem_of_cons. split; [congruence | done].
Qed.

End DirectoryLoop.

(** X15. After a batch over a listing of distinct names whose CSV files
    are all there, no considered file is left, whether its upload
    worked or not: the listing of the download directory holds exactly
    the names that were not considered, in their order, and no
    considered file remains. *)
Theorem batch_leaves_no_csv (w : Warehouse.warehouse)
    (self : BigQueryUploader) (names : list string) :
  Warehouse.wh_dirs w !! download_path self = Some names →
  NoDup names →
  Forall (fun n => Py.startswith n "/" = false) names →
  (∀ n, n ∈ names → considered n = true →
        is_Some (Warehouse.wh_files w !! file_path_of self n)) →
  Warehouse.wh_dirs (upload_all_csvs self w).1.2 !! download_path self =
    Some (filter (fun n => considered n = false) names)
  ∧ ∀ n, n ∈ names → considered n = true →
      Warehouse.wh_files (upload_all_csvs self w).1.2
        !! file_path_of self n = None.
Proof.
  intros Hdir Hnd Hslash Hex.
  assert (Hrun : (upload_all_csvs self w).1.2 =
                 (for_each names (process_file self) w).1.2).
  { unfold upload_all_csvs. rewrite run_bind.
    unfold logger_info. cbv beta iota. rewrite run_bind, run_call.
    change (rt_listdir ?p w) with (Warehouse.wh_listdir p w).
    unfold Warehouse.wh_listdir. rewrite Hdir. cbn [fst snd].
    by destruct (for_each names (process_file self) w) as [[r w2] t2]. }
  rewrite Hrun.
  apply (batch_loop_fs self names Hnd Hslash names w); try done.
  rewrite Hdir. f_equal. symmetry. apply filter_all.
  intros x Hx. by right.
Qed.

Lemma batch_leaves_no_csv_witness :
  Warehouse.wh_dirs (upload_all_csvs Sample.uploader Sample.world).1.2
    !! "/dl" = Some ["notes.txt"].
Proof.
  destruct (batch_leaves_no_csv Sample.world Sample.uploader
              ["leads.csv"; "Orders.CSV"; "notes.txt"; "new.csv"])
    as [H _].
  - vm_compute. reflexivity.
  - apply (bool_decide_unpack _). vm_compute. exact I.
  - repeat constructor.
  - intros n Hn Hc.
    repeat (apply elem_of_cons in Hn as [-> | Hn]);
      [vm_compute; eauto | vm_compute; eauto | discriminate
       | vm_compute; eauto | by apply elem_of_nil in Hn].
  - etrans; [exact H |]. vm_compute. reflexivity.
Defined.
